(** * OnlineBk backend: registration, login, the authorization guard and
      the product rating update

    A shallow embedding of [src/routes/Auth.js], [src/authMiddleware.js],
    [src/models/User.js], [src/product.js] and the rating route of
    [src/app.js].

    Conventions of the embedding.
    - A JavaScript object used as a record of fields is a [gmap string value];
      a field that is absent reads as [VUndefined].
    - A handler is a function from the state of the document store (and
      the request) to the new state and the response it sends.
    - A rejected promise or a thrown exception is [Throw msg], where [msg]
      is [error.message]; [try { ... } catch (error) { ... }] is a [match].
    - Strings are sequences of 8-bit characters.
    - JavaScript numbers of the rating route are exact rationals ([Q]):
      rounding of IEEE doubles is outside the model.
    - The libraries [bcryptjs] and [jsonwebtoken] are parameters of the
      development (the classes [Bcrypt] and [Jws]); what a theorem needs
      of them is a hypothesis of its section. *)

From Stdlib Require Import Ascii String QArith Qround Lqa.
From stdpp Require Import gmap strings list fin_maps.

Open Scope string_scope.

(** ** JavaScript values and objects *)

Inductive value :=
| VUndefined
| VString (s : string)
| VObjectId (oid : nat).

#[global] Instance value_eq_dec : EqDecision value.
Proof. solve_decision. Defined.

(** [o.k] on a plain object. *)
Definition prop (o : gmap string value) (k : string) : value :=
  default VUndefined (o !! k).

(** [JSON.stringify] of an object: a property whose value is [undefined]
    is not written. *)
Definition JSON_stringify (o : gmap string value) : gmap string value :=
  filter (λ kv, kv.2 ≠ VUndefined) o.

(** [typeof v]. *)
Definition typeof (v : value) : string :=
  match v with
  | VUndefined => "undefined"
  | VString _ => "string"
  | VObjectId _ => "object"
  end.

(** Exceptions. *)
Inductive outcome (A : Type) :=
| Ok (a : A)
| Throw (message : string).
Arguments Ok {A} a.
Arguments Throw {A} message.

(** ** Strings *)

(** [s.split(sep)] for a separator of one character: every occurrence
    of the separator ends a segment, so the result is never empty. *)
Fixpoint split (sep : ascii) (s : string) : list string :=
  match s with
  | "" => [""]
  | String c s' =>
      if Ascii.eqb c sep then "" :: split sep s'
      else match split sep s' with
           | seg :: segs => String c seg :: segs
           | [] => [String c ""]
           end
  end.

(** [sep] does not occur in [s]. *)
Fixpoint free_of (sep : ascii) (s : string) : bool :=
  match s with
  | "" => true
  | String c s' => negb (Ascii.eqb c sep) && free_of sep s'
  end.

(** ** Regular expressions, as far as the User schema uses them *)

Inductive regex :=
| Void
| Eps
| Chr (c : ascii)
| Dot
| AnyChar
| Alt (r1 r2 : regex)
| Seq (r1 r2 : regex)
| Star (r : regex).

(** [r+] *)
Definition Plus (r : regex) : regex := Seq r (Star r).

(** The line terminators that [.] does not match (those that fit in one
    8-bit character). *)
Definition line_terminator (c : ascii) : bool :=
  Ascii.eqb c "010"%char || Ascii.eqb c "013"%char.

Fixpoint nullable (r : regex) : bool :=
  match r with
  | Void | Chr _ | Dot | AnyChar => false
  | Eps | Star _ => true
  | Alt r1 r2 => nullable r1 || nullable r2
  | Seq r1 r2 => nullable r1 && nullable r2
  end.

(** The derivative of [r] by the character [c]. *)
Fixpoint deriv (c : ascii) (r : regex) : regex :=
  match r with
  | Void | Eps => Void
  | Chr a => if Ascii.eqb a c then Eps else Void
  | Dot => if line_terminator c then Void else Eps
  | AnyChar => Eps
  | Alt r1 r2 => Alt (deriv c r1) (deriv c r2)
  | Seq r1 r2 =>
      if nullable r1 then Alt (Seq (deriv c r1) r2) (deriv c r2)
      else Seq (deriv c r1) r2
  | Star r1 => Seq (deriv c r1) (Star r1)
  end.

(** The whole of [s] matches [r]. *)
Fixpoint matches (r : regex) (s : string) : bool :=
  match s with
  | "" => nullable r
  | String c s' => matches (deriv c r) s'
  end.

(** [r.test(s)] for a pattern without anchors: some substring of [s]
    matches [r]. *)
Definition test (r : regex) (s : string) : bool :=
  matches (Seq (Star AnyChar) (Seq r (Star AnyChar))) s.

(** [/.+\@.+\..+/] *)
Definition email_pattern : regex :=
  Seq (Plus Dot) (Seq (Chr "@") (Seq (Plus Dot) (Seq (Chr ".") (Plus Dot)))).

(** The strings that a pattern matches, to state what [matches] and
    [test] compute. *)
Inductive star (L : string → Prop) : string → Prop :=
| star_nil : star L ""
| star_cons (s1 s2 : string) : L s1 → star L s2 → star L (s1 +:+ s2).

Fixpoint lang (r : regex) (s : string) : Prop :=
  match r with
  | Void => False
  | Eps => s = ""
  | Chr c => s = String c ""
  | Dot => ∃ c, s = String c "" ∧ line_terminator c = false
  | AnyChar => ∃ c, s = String c ""
  | Alt r1 r2 => lang r1 s ∨ lang r2 s
  | Seq r1 r2 => ∃ s1 s2, s = s1 +:+ s2 ∧ lang r1 s1 ∧ lang r2 s2
  | Star r1 => star (lang r1) s
  end.

(** No character of [s] is a line terminator. *)
Fixpoint one_line (s : string) : bool :=
  match s with
  | "" => true
  | String c s' => negb (line_terminator c) && one_line s'
  end.

(** ** The document store *)

(** A document of the users collection: its [_id] and its other
    fields. *)
Record Document := { _id : nat; fields : gmap string value }.

(** The Product schema of [src/product.js]. *)
Record Rating := { averageRating : Q; numberOfRatings : Q }.

Record Product := {
  product_id : nat;
  product_name : string;
  price : Q;
  category : string;
  description : option string;
  imgUrl : option string;
  hotel : option string;
  isFeatured : bool;
  isBestDeal : bool;
  rating : Rating
}.

(** The state the handlers run in: the two collections, the counter that
    new [ObjectId]s come from, and whether the connection to the database
    is lost ([Some msg]: every operation on it rejects with [msg]). *)
Record World := {
  users : list Document;
  products : list Product;
  next_oid : nat;
  db_failure : option string
}.

Definition set_users (w : World) (us : list Document) : World :=
  {| users := us; products := products w; next_oid := next_oid w;
     db_failure := db_failure w |}.

Definition set_products (w : World) (ps : list Product) : World :=
  {| users := users w; products := ps; next_oid := next_oid w;
     db_failure := db_failure w |}.

Definition take_oid (w : World) : nat * World :=
  (next_oid w,
   {| users := users w; products := products w; next_oid := S (next_oid w);
      db_failure := db_failure w |}).

(** *** The User model, [src/models/User.js] *)

(** The paths of [UserSchema]. *)
Definition UserSchema : list string := ["name"; "email"; "phone"; "password"].

(** [doc.k] on a user document, for [k] other than [_id]. The schema is
    strict (the default of [mongoose.Schema]): the document has a property
    for each path of the schema and for no other name, so a name that is
    not a path reads as undefined, whatever is stored. *)
Definition get (doc : Document) (k : string) : value :=
  if decide (k ∈ UserSchema) then prop (fields doc) k else VUndefined.

(** The [required] message of a path of [UserSchema]. *)
Definition required_message (path : string) : string :=
  if String.eqb path "name" then "Name is required"
  else if String.eqb path "email" then "Email is required"
  else if String.eqb path "phone" then "Phone is required"
  else "Password is required".

(** [new User(o)]: the schema is strict, so only its paths are taken from
    [o] and a key of [o] that is not a path is dropped; the document gets
    a fresh [_id]. *)
Definition new_User (oid : nat) (o : gmap string value) : Document :=
  {| _id := oid;
     fields := filter (λ kv, kv.1 ∈ UserSchema ∧ kv.2 ≠ VUndefined) o |}.

(** The [required] validator of a string path. *)
Definition check_required (doc : Document) (path : string)
  : list (string * string) :=
  match get doc path with
  | VString s => if String.eqb s "" then [(path, required_message path)] else []
  | _ => [(path, required_message path)]
  end.

(** The [match] validator of [email]; it is not run on an empty value. *)
Definition check_match (doc : Document) : list (string * string) :=
  match get doc "email" with
  | VString s =>
      if String.eqb s "" || test email_pattern s then []
      else [("email", "Please fill a valid email address")]
  | _ => []
  end.

Fixpoint join (sep : string) (l : list string) : string :=
  match l with
  | [] => ""
  | [x] => x
  | x :: l' => x +:+ sep +:+ join sep l'
  end.

(** [doc.validate()]: the failures of all paths, in one [ValidationError]. *)
Definition User_validate (doc : Document) : outcome unit :=
  let errors :=
    (check_required doc "name" ++ check_required doc "email" ++ check_match doc
     ++ check_required doc "phone" ++ check_required doc "password")%list in
  match errors with
  | [] => Ok ()
  | _ =>
      Throw ("User validation failed: "
             +:+ join ", " (map (λ e, e.1 +:+ ": " +:+ e.2) errors))
  end.

Definition has_email (email : string) (doc : Document) : bool :=
  bool_decide (fields doc !! "email" = Some (VString email)).

(** [User.findOne({ email })] *)
Definition User_findOne (w : World) (email : string)
  : outcome (option Document) :=
  match db_failure w with
  | Some e => Throw e
  | None => Ok (find (has_email email) (users w))
  end.

(** [doc.save()] of a new user: validation, then the insert, which the
    unique index on [email] may refuse. *)
Definition User_save (w : World) (doc : Document) : World * outcome unit :=
  match User_validate doc with
  | Throw e => (w, Throw e)
  | Ok _ =>
      match db_failure w with
      | Some e => (w, Throw e)
      | None =>
          match get doc "email" with
          | VString email =>
              if existsb (has_email email) (users w)
              then (w, Throw "E11000 duplicate key error")
              else (set_users w ((users w ++ [doc])%list), Ok ())
          | _ => (set_users w ((users w ++ [doc])%list), Ok ())
          end
      end
  end.

(** *** The Product model *)

(** [Product.findById(id)] *)
Definition Product_findById (w : World) (id : nat) : outcome (option Product) :=
  match db_failure w with
  | Some e => Throw e
  | None => Ok (find (λ p, Nat.eqb (product_id p) id) (products w))
  end.

(** [product.save()] of a product read from the collection. *)
Definition Product_save (w : World) (p : Product) : World * outcome unit :=
  match db_failure w with
  | Some e => (w, Throw e)
  | None =>
      (set_products w
         (map (λ q, if Nat.eqb (product_id q) (product_id p) then p else q)
            (products w)),
       Ok ())
  end.

(** ** Requests and responses *)

(** The claims of a session token: the payload [{ id, iat, exp }]. *)
Module Claims.
Record t := { id : nat; iat : nat; exp : nat }.
End Claims.

(** The bodies the routes send with [res.json]. *)
Inductive Json :=
| JMessage (message : string)
| JError (message error : string)
| JRegistered (message : string) (user : gmap string value)
| JLogin (token : string) (user : gmap string value)
| JClaims (claims : Claims.t)
| JProduct (product : Product).

Record Response := { status : nat; body : Json }.

(** [res.status(code).json(b)] *)
Definition res_status_json (code : nat) (b : Json) : Response :=
  {| status := code; body := b |}.

(** The [user] property of a body, if it has one. *)
Definition body_user (b : Json) : option (gmap string value) :=
  match b with
  | JRegistered _ u | JLogin _ u => Some u
  | _ => None
  end.

(** [req.body] and [req.file] of the register route: a field of the form
    is a string or is missing; [file] is the path of the picture that the
    upload middleware stored, if one was sent. *)
Record RegisterRequest := {
  name : option string;
  email : option string;
  phone : option string;
  password : option string;
  file : option string
}.

(** [req.body] of the login route. The email is a string: what the store
    does with a query on an undefined value is outside the model. *)
Record LoginRequest := {
  login_email : string;
  login_password : option string
}.

(** A request as the guard sees it: its headers, under lower-case names. *)
Record Request := { headers : gmap string string }.

Definition lower_ascii (c : ascii) : ascii :=
  let n := nat_of_ascii c in
  if (65 <=? n)%nat && (n <=? 90)%nat then ascii_of_nat (n + 32) else c.

Fixpoint toLowerCase (s : string) : string :=
  match s with
  | "" => ""
  | String c s' => String (lower_ascii c) (toLowerCase s')
  end.

(** [req.header(name)] *)
Definition header (req : Request) (name : string) : option string :=
  headers req !! toLowerCase name.

(** [process.env], in which the secret is set. *)
Record Env := { JWT_SECRET : string }.

(** [!s] for a value that is a string or undefined. *)
Definition falsy (s : option string) : bool :=
  match s with
  | None => true
  | Some s => String.eqb s ""
  end.

(** ** The libraries *)

(** [bcryptjs]: the digest of a plaintext for a number of rounds and a
    salt, and the check of a plaintext against a digest. *)
Class Bcrypt := {
  bcrypt_digest : string → nat → string → string;
  bcrypt_check : string → string → bool
}.

(** [bcrypt.hash(s, rounds)], with the salt it generates. *)
Definition bcrypt_hash `{Bcrypt} (salt : string) (s : string) (rounds : nat)
  : string :=
  bcrypt_digest s rounds salt.

(** [bcrypt.compare(s, hash)]: both arguments must be strings. *)
Definition bcrypt_compare `{Bcrypt} (s : option string) (hash : value)
  : outcome bool :=
  match s, hash with
  | Some s, VString h => Ok (bcrypt_check s h)
  | _, _ =>
      Throw ("Illegal arguments: "
             +:+ match s with Some _ => "string" | None => "undefined" end
             +:+ ", " +:+ typeof hash)
  end.

(** [jsonwebtoken]: the keyed signature of a payload, and the compact
    form of a signed payload with its decoder. *)
Class Jws := {
  hs256 : string → Claims.t → string;
  jws_encode : Claims.t → string → string;
  jws_decode : string → option (Claims.t * string)
}.

(** Modelled from the spec: [jwt.sign({ id }, secret, { expiresIn: '1h' })]
    of the library [jsonwebtoken], whose code is not among the sources, at
    the time [now] (in seconds). The token carries the id, the time of
    issue and an expiry one hour later, and is signed with the secret. *)
Definition jwt_sign `{Jws} (id : nat) (secret : string) (now : nat) : string :=
  let payload := {| Claims.id := id; Claims.iat := now;
                    Claims.exp := now + 3600 |} in
  jws_encode payload (hs256 secret payload).

(** Modelled from the spec: [jwt.verify(token, secret)] of the same
    library, at the time [now]. It throws on a token that does not decode,
    then on a signature that is not the one of the payload under the
    secret, then on an expiry that is reached; otherwise it returns the
    payload. *)
Definition jwt_verify `{Jws} (token secret : string) (now : nat)
  : outcome Claims.t :=
  match jws_decode token with
  | None => Throw "jwt malformed"
  | Some (payload, signature) =>
      if negb (String.eqb signature (hs256 secret payload))
      then Throw "invalid signature"
      else if (Claims.exp payload <=? now)%nat then Throw "jwt expired"
      else Ok payload
  end.

(** ** [src/routes/Auth.js] *)

(** The limited user info both routes answer with. *)
Definition user_info (user : Document) : gmap string value :=
  {[ "id" := VObjectId (_id user);
     "name" := get user "name";
     "email" := get user "email";
     "phone" := get user "phone";
     "profilePicture" := get user "profilePicture" ]}.

(** [router.post('/register', upload.single('profilePicture'), ...)] *)
Definition register `{Bcrypt} (salt : string) (w : World)
    (req : RegisterRequest) : World * Response :=
  if falsy (name req) || falsy (email req) || falsy (phone req)
     || falsy (password req)
  then (w, res_status_json 400 (JMessage "All fields are required"))
  else
    match name req, email req, phone req, password req with
    | Some name, Some email, Some phone, Some password =>
        match User_findOne w email with
        | Throw e => (w, res_status_json 500 (JError "Server error" e))
        | Ok (Some existingUser) =>
            (w, res_status_json 400 (JMessage "User already exists"))
        | Ok None =>
            let hashedPassword := bcrypt_hash salt password 10 in
            let (oid, w1) := take_oid w in
            let newUser :=
              new_User oid
                {[ "name" := VString name;
                   "email" := VString email;
                   "phone" := VString phone;
                   "password" := VString hashedPassword;
                   "profilePicture" :=
                     VString (match file req with Some path => path | None => "" end) ]} in
            match User_save w1 newUser with
            | (w2, Throw e) => (w2, res_status_json 500 (JError "Server error" e))
            | (w2, Ok _) =>
                (w2, res_status_json 201
                       (JRegistered "User registered successfully"
                          (JSON_stringify (user_info newUser))))
            end
        end
    | _, _, _, _ => (w, res_status_json 400 (JMessage "All fields are required"))
    end.

(** [router.post('/login', ...)] at the time [now]. *)
Definition login `{Bcrypt} `{Jws} (env : Env) (now : nat) (w : World)
    (req : LoginRequest) : World * Response :=
  match User_findOne w (login_email req) with
  | Throw e => (w, res_status_json 500 (JMessage e))
  | Ok None => (w, res_status_json 400 (JMessage "Invalid email or password"))
  | Ok (Some user) =>
      match bcrypt_compare (login_password req) (get user "password") with
      | Throw e => (w, res_status_json 500 (JMessage e))
      | Ok false =>
          (w, res_status_json 400 (JMessage "Invalid email or password"))
      | Ok true =>
          let token := jwt_sign (_id user) (JWT_SECRET env) now in
          (w, res_status_json 200
                (JLogin token (JSON_stringify (user_info user))))
      end
  end.

(** ** [src/authMiddleware.js] *)

(** What a middleware does with a request: it answers, or it calls
    [next()] after setting [req.user]. *)
Inductive Handled :=
| Respond (res : Response)
| Next (user : Claims.t).

(** [authMiddleware] at the time [now]. *)
Definition authMiddleware `{Jws} (env : Env) (now : nat) (req : Request)
  : Handled :=
  let token :=
    match header req "Authorization" with
    | None => None
    | Some h => split " " h !! 1%nat
    end in
  match token with
  | None | Some "" =>
      Respond (res_status_json 401
                 (JMessage "Authorization denied. No token provided."))
  | Some token =>
      match jwt_verify token (JWT_SECRET env) now with
      | Ok decoded => Next decoded
      | Throw _ => Respond (res_status_json 401 (JMessage "Token is not valid"))
      end
  end.

(** [router.get('/me', authMiddleware, ...)]; [res.json] answers 200. *)
Definition me `{Jws} (env : Env) (now : nat) (w : World) (req : Request)
  : World * Response :=
  match authMiddleware env now req with
  | Respond res => (w, res)
  | Next user => (w, res_status_json 200 (JClaims user))
  end.

(** The two answers of the guard. *)
Definition no_token : Response :=
  res_status_json 401 (JMessage "Authorization denied. No token provided.").

Definition invalid_token : Response :=
  res_status_json 401 (JMessage "Token is not valid").

(** The token segment of a request: the second segment of the header,
    if there is one and it is not empty. *)
Definition token_segment (req : Request) : option string :=
  match header req "Authorization" with
  | None => None
  | Some h =>
      match split " " h !! 1%nat with
      | Some "" | None => None
      | Some token => Some token
      end
  end.

(** ** The rating route of [src/app.js] *)

(** [!newRating || newRating < 1 || newRating > 5] *)
Definition rating_rejected (newRating : option Q) : bool :=
  match newRating with
  | None => true
  | Some r => Qeq_bool r 0 || negb (Qle_bool 1 r) || negb (Qle_bool r 5)
  end.

(** [app.post('/api/products/:id/rate', ...)], for an [id] that is a
    well-formed [ObjectId]. *)
Definition rate (w : World) (id : nat) (newRating : option Q)
  : World * Response :=
  if rating_rejected newRating
  then (w, res_status_json 400 (JMessage "Rating must be between 1 and 5"))
  else
    match newRating with
    | None => (w, res_status_json 400 (JMessage "Rating must be between 1 and 5"))
    | Some newRating =>
        match Product_findById w id with
        | Throw e => (w, res_status_json 500 (JError "Failed to update rating" e))
        | Ok None => (w, res_status_json 404 (JMessage "Product not found"))
        | Ok (Some product) =>
            let totalRating :=
              (averageRating (rating product) * numberOfRatings (rating product)
               + newRating)%Q in
            let updatedNumberOfRatings :=
              (numberOfRatings (rating product) + 1)%Q in
            let updatedAverageRating :=
              (totalRating / updatedNumberOfRatings)%Q in
            let product :=
              {| product_id := product_id product;
                 product_name := product_name product;
                 price := price product;
                 category := category product;
                 description := description product;
                 imgUrl := imgUrl product;
                 hotel := hotel product;
                 isFeatured := isFeatured product;
                 isBestDeal := isBestDeal product;
                 rating := {| averageRating := updatedAverageRating;
                              numberOfRatings := updatedNumberOfRatings |} |} in
            match Product_save w product with
            | (w', Throw e) =>
                (w', res_status_json 500 (JError "Failed to update rating" e))
            | (w', Ok _) => (w', res_status_json 200 (JProduct product))
            end
        end
    end.

(** ** The other product routes of [src/app.js] *)

(** [req.body] of the routes that create and update a product: each path
    of the schema is given with its type or is missing. A body with a
    [rating], an [_id] or a value of another type is outside the model. *)
Record ProductBody := {
  body_name : option string;
  body_price : option Q;
  body_category : option string;
  body_description : option string;
  body_imgUrl : option string;
  body_hotel : option string;
  body_isFeatured : option bool;
  body_isBestDeal : option bool
}.

(** [!x] for a value that is a number or undefined. *)
Definition falsy_number (x : option Q) : bool :=
  match x with
  | None => true
  | Some q => Qeq_bool q 0
  end.

(** [!name || !price || !category || !description] *)
Definition body_incomplete (b : ProductBody) : bool :=
  falsy (body_name b) || falsy_number (body_price b)
  || falsy (body_category b) || falsy (body_description b).

(** [new Product(req.body)] with a fresh [_id]: the paths that the body
    leaves out take the defaults of the schema. *)
Definition new_Product (oid : nat) (name : string) (price : Q)
    (category description : string) (b : ProductBody) : Product :=
  {| product_id := oid;
     product_name := name;
     price := price;
     category := category;
     description := Some description;
     imgUrl := body_imgUrl b;
     hotel := body_hotel b;
     isFeatured := default false (body_isFeatured b);
     isBestDeal := default false (body_isBestDeal b);
     rating := {| averageRating := 0; numberOfRatings := 0 |} |}.

(** The [required] validators of the Product schema on a new document. *)
Definition Product_validate (p : Product) : outcome unit :=
  let errors :=
    ((if String.eqb (product_name p) ""
      then ["name: Path `name` is required."] else [])
     ++ (if String.eqb (category p) ""
         then ["category: Path `category` is required."] else []))%list in
  match errors with
  | [] => Ok ()
  | _ => Throw ("Product validation failed: " +:+ join ", " errors)
  end.

Definition has_id (id : nat) (p : Product) : bool := Nat.eqb (product_id p) id.

(** [doc.save()] of a new product: validation, then the insert, which
    the index on [_id] may refuse. *)
Definition Product_insert (w : World) (p : Product) : World * outcome unit :=
  match Product_validate p with
  | Throw e => (w, Throw e)
  | Ok _ =>
      match db_failure w with
      | Some e => (w, Throw e)
      | None =>
          if existsb (has_id (product_id p)) (products w)
          then (w, Throw "E11000 duplicate key error")
          else (set_products w ((products w ++ [p])%list), Ok ())
      end
  end.

(** [app.post('/api/products', ...)] *)
Definition post_product (w : World) (b : ProductBody) : World * Response :=
  if body_incomplete b
  then (w, res_status_json 400
             (JMessage "Name, price, category, and description are required"))
  else
    match body_name b, body_price b, body_category b, body_description b with
    | Some name, Some price, Some category, Some description =>
        let (oid, w1) := take_oid w in
        let newProduct := new_Product oid name price category description b in
        match Product_insert w1 newProduct with
        | (w2, Throw e) =>
            (w2, res_status_json 400 (JError "Failed to insert product" e))
        | (w2, Ok _) => (w2, res_status_json 201 (JProduct newProduct))
        end
    | _, _, _, _ =>
        (w, res_status_json 400
              (JMessage "Name, price, category, and description are required"))
    end.

(** [app.get('/api/products/:id', ...)] *)
Definition get_product (w : World) (id : nat) : World * Response :=
  match Product_findById w id with
  | Throw e =>
      (w, res_status_json 500 (JError "Failed to fetch product details" e))
  | Ok None => (w, res_status_json 404 (JMessage "Product not found"))
  | Ok (Some product) => (w, res_status_json 200 (JProduct product))
  end.

(** The update of [findByIdAndUpdate(id, req.body)] on one product: the
    paths of the body are set, the others stay. *)
Definition set_paths (name : string) (price : Q) (category description : string)
    (b : ProductBody) (p : Product) : Product :=
  {| product_id := product_id p;
     product_name := name;
     price := price;
     category := category;
     description := Some description;
     imgUrl := match body_imgUrl b with Some u => Some u | None => imgUrl p end;
     hotel := match body_hotel b with Some h => Some h | None => hotel p end;
     isFeatured := default (isFeatured p) (body_isFeatured b);
     isBestDeal := default (isBestDeal p) (body_isBestDeal b);
     rating := rating p |}.

(** The first product with the id replaced by [f] of it. *)
Fixpoint update_first (id : nat) (f : Product → Product) (ps : list Product)
  : list Product :=
  match ps with
  | [] => []
  | p :: ps' => if has_id id p then f p :: ps' else p :: update_first id f ps'
  end.

(** The products without the first one with the id. *)
Fixpoint delete_first (id : nat) (ps : list Product) : list Product :=
  match ps with
  | [] => []
  | p :: ps' => if has_id id p then ps' else p :: delete_first id ps'
  end.

(** [Product.findByIdAndUpdate(id, req.body, { new: true, runValidators:
    true })], for a body that the route has checked: the validators run on
    the paths of the update only, none of which is empty. It resolves to
    the product after the update. *)
Definition Product_findByIdAndUpdate (w : World) (id : nat)
    (name : string) (price : Q) (category description : string)
    (b : ProductBody) : World * outcome (option Product) :=
  match db_failure w with
  | Some e => (w, Throw e)
  | None =>
      match find (has_id id) (products w) with
      | None => (w, Ok None)
      | Some p =>
          let update := set_paths name price category description b in
          (set_products w (update_first id update (products w)),
           Ok (Some (update p)))
      end
  end.

(** [app.put('/api/products/:id', ...)] *)
Definition put_product (w : World) (id : nat) (b : ProductBody)
  : World * Response :=
  if body_incomplete b
  then (w, res_status_json 400
             (JMessage "Name, price, category, and description are required for update"))
  else
    match body_name b, body_price b, body_category b, body_description b with
    | Some name, Some price, Some category, Some description =>
        match Product_findByIdAndUpdate w id name price category description b with
        | (w', Throw e) =>
            (w', res_status_json 400 (JError "Failed to update product" e))
        | (w', Ok None) =>
            (w', res_status_json 404 (JMessage "Product not found"))
        | (w', Ok (Some product)) =>
            (w', res_status_json 200 (JProduct product))
        end
    | _, _, _, _ =>
        (w, res_status_json 400
              (JMessage "Name, price, category, and description are required for update"))
    end.

(** [Product.findByIdAndDelete(id)]: it resolves to the deleted product. *)
Definition Product_findByIdAndDelete (w : World) (id : nat)
  : World * outcome (option Product) :=
  match db_failure w with
  | Some e => (w, Throw e)
  | None =>
      match find (has_id id) (products w) with
      | None => (w, Ok None)
      | Some p => (set_products w (delete_first id (products w)), Ok (Some p))
      end
  end.

(** [app.delete('/api/products/:id', ...)] *)
Definition delete_product (w : World) (id : nat) : World * Response :=
  match Product_findByIdAndDelete w id with
  | (w', Throw e) =>
      (w', res_status_json 500 (JError "Failed to delete product" e))
  | (w', Ok None) => (w', res_status_json 404 (JMessage "Product not found"))
  | (w', Ok (Some _)) =>
      (w', res_status_json 200 (JMessage "Product deleted successfully"))
  end.

(** *** The routes that list products *)

(** The bodies of the routes that list products. *)
Inductive Listing :=
| LMessage (message : string)
| LError (message error : string)
| LProducts (products : list Product)
| LPage (products : list Product) (totalPages : Z) (currentPage : positive).

Record ListResponse := { list_status : nat; list_body : Listing }.

(** The products of a listing. *)
Definition listed (r : ListResponse) : list Product :=
  match list_body r with
  | LProducts ps | LPage ps _ _ => ps
  | _ => []
  end.

(** [Product.find(filter)], in the order of the collection. *)
Definition Product_find (w : World) (filter : Product → bool)
  : outcome (list Product) :=
  match db_failure w with
  | Some e => Throw e
  | None => Ok (List.filter filter (products w))
  end.

(** [Product.countDocuments(filter)] *)
Definition Product_countDocuments (w : World) (filter : Product → bool)
  : outcome nat :=
  match db_failure w with
  | Some e => Throw e
  | None => Ok (length (List.filter filter (products w)))
  end.

(** The filter of the products route: [{ hotel }] if [hotel] is given and
    not empty, [{}] otherwise. *)
Definition hotel_filter (h : option string) (p : Product) : bool :=
  if falsy h then true
  else match h, hotel p with
       | Some h, Some h' => String.eqb h' h
       | _, _ => false
       end.

(** [app.get('/api/products', ...)], for a [page] and a [limit] that are
    the numerals of positive integers, or are missing. The query skips
    [(page - 1) * limit] products and takes [limit]. *)
Definition get_products (w : World) (h : option string)
    (page limit : option positive) : World * ListResponse :=
  let page := default 1%positive page in
  let limit := default 10%positive limit in
  match Product_find w (hotel_filter h) with
  | Throw e =>
      (w, {| list_status := 500; list_body := LError "Failed to fetch products" e |})
  | Ok found =>
      let products :=
        take (Pos.to_nat limit)
          (drop ((Pos.to_nat page - 1) * Pos.to_nat limit) found) in
      match Product_countDocuments w (hotel_filter h) with
      | Throw e =>
          (w, {| list_status := 500;
                 list_body := LError "Failed to fetch products" e |})
      | Ok count =>
          (w, {| list_status := 200;
                 list_body :=
                   LPage products
                     (Qceiling (inject_Z (Z.of_nat count)
                                / inject_Z (Z.pos limit)))
                     page |})
      end
  end.

(** [app.get('/api/best-deals', ...)] *)
Definition get_best_deals (w : World) : World * ListResponse :=
  match Product_find w isBestDeal with
  | Throw e =>
      (w, {| list_status := 500;
             list_body := LError "Failed to fetch best deals" e |})
  | Ok bestDeals => (w, {| list_status := 200; list_body := LProducts bestDeals |})
  end.

(** [app.get('/api/featured-products', ...)] *)
Definition get_featured_products (w : World) : World * ListResponse :=
  match Product_find w isFeatured with
  | Throw e =>
      (w, {| list_status := 500;
             list_body := LError "Failed to fetch featured products" e |})
  | Ok featuredProducts =>
      (w, {| list_status := 200; list_body := LProducts featuredProducts |})
  end.

(** [app.get('/api/products/category/:category', ...)] *)
Definition get_category (w : World) (c : string) : World * ListResponse :=
  match Product_find w (λ p, String.eqb (category p) c) with
  | Throw e =>
      (w, {| list_status := 500;
             list_body :=
               LError ("Failed to fetch products by category: " +:+ c) e |})
  | Ok products =>
      if Nat.eqb (length products) 0
      then (w, {| list_status := 404;
                  list_body :=
                    LMessage ("No products found for category: " +:+ c) |})
      else (w, {| list_status := 200; list_body := LProducts products |})
  end.

(** ** Small instances of the libraries

    They show that what the theorems assume of the libraries can be met,
    and let the handlers run on concrete requests. *)

(** A digest that marks the plaintext, and the check to go with it. *)
Definition mark_bcrypt : Bcrypt :=
  {| bcrypt_digest := λ s rounds salt, String "$" s;
     bcrypt_check := λ s h, String.eqb h (String "$" s) |}.

Fixpoint ones (n : nat) : string :=
  match n with
  | O => ""
  | S n' => String "1" (ones n')
  end.

(** The number of leading ["1"]s of [s], and what follows them. *)
Fixpoint read_ones (s : string) : nat * string :=
  match s with
  | String c s' =>
      if Ascii.eqb c "1" then let (n, rest) := read_ones s' in (S n, rest)
      else (O, s)
  | "" => (O, "")
  end.

(** What follows a leading ["."]. *)
Definition read_dot (s : string) : option string :=
  match s with
  | String c s' => if Ascii.eqb c "." then Some s' else None
  | "" => None
  end.

Definition unary_decode (s : string) : option (Claims.t * string) :=
  let (i, s1) := read_ones s in
  s1' ← read_dot s1;
  let (t, s2) := read_ones s1' in
  s2' ← read_dot s2;
  let (e, s3) := read_ones s2' in
  signature ← read_dot s3;
  Some ({| Claims.id := i; Claims.iat := t; Claims.exp := e |}, signature).

(** Tokens [id.iat.exp.signature] with the numbers in unary, signed by a
    tally of the secret and the payload. *)
Definition unary_jws : Jws :=
  {| hs256 := λ secret payload,
       ones (String.length secret + Claims.id payload + Claims.iat payload
             + Claims.exp payload);
     jws_encode := λ payload signature,
       ones (Claims.id payload) +:+ "." +:+ ones (Claims.iat payload) +:+ "."
       +:+ ones (Claims.exp payload) +:+ "." +:+ signature;
     jws_decode := unary_decode |}.

(** The scenario of the specification: nobody is registered yet. *)
Definition empty_world : World :=
  {| users := []; products := []; next_oid := 0; db_failure := None |}.

Definition request_A : RegisterRequest :=
  {| name := Some "A"; email := Some "a@x.com"; phone := Some "1";
     password := Some "pw12345"; file := None |}.

Definition world_A : World := (@register mark_bcrypt "salt" empty_world request_A).1.

Definition env_k : Env := {| JWT_SECRET := "k" |}.

(** The request of the scenario of the specification, with an email
    that has no "@". *)
Definition request_abc : RegisterRequest :=
  {| name := Some "A"; email := Some "abc"; phone := Some "1";
     password := Some "pw12345"; file := None |}.

(** A request whose only header is [Authorization: h]. *)
Definition with_authorization (h : string) : Request :=
  {| headers := {[ "authorization" := h ]} |}.

(** The state after the registration of the scenario, the database
    being out of reach. *)
Definition world_A_offline : World :=
  {| users := users world_A; products := products world_A;
     next_oid := next_oid world_A; db_failure := Some "connection lost" |}.

Definition login_A : LoginRequest :=
  {| login_email := "a@x.com"; login_password := Some "pw12345" |}.

(** The record of the user of the scenario. *)
Definition user_A : Document :=
  {| _id := 0;
     fields := {[ "name" := VString "A"; "email" := VString "a@x.com";
                  "phone" := VString "1"; "password" := VString "$pw12345" ]} |}.

(** The token of a login of that user at the time 5, and its claims. *)
Definition token_A : string := @jwt_sign unary_jws 0 "k" 5.

Definition claims_A : Claims.t :=
  {| Claims.id := 0; Claims.iat := 5; Claims.exp := 3605 |}.

(** A catalogue of one product, rated 4 on average by two ratings. *)
Definition product_P : Product :=
  {| product_id := 7; product_name := "Tea"; price := 3; category := "drinks";
     description := Some "A cup of tea"; imgUrl := None; hotel := None;
     isFeatured := false; isBestDeal := false;
     rating := {| averageRating := 4; numberOfRatings := 2 |} |}.

Definition world_P : World :=
  {| users := []; products := [product_P]; next_oid := 8; db_failure := None |}.

(** The request of the scenario, sent with a picture. *)
Definition request_A_picture : RegisterRequest :=
  {| name := Some "A"; email := Some "a@x.com"; phone := Some "1";
     password := Some "pw12345"; file := Some "uploads/1700000000000.png" |}.

(** The object that [register] passes to [new User]. *)
Definition register_input (name email phone hashedPassword picture : string)
  : gmap string value :=
  {[ "name" := VString name;
     "email" := VString email;
     "phone" := VString phone;
     "password" := VString hashedPassword;
     "profilePicture" := VString picture ]}.

(** The number of stored users with a given email. *)
Definition count_email (email : string) (w : World) : nat :=
  length (filter (λ doc, has_email email doc = true) (users w)).

(** ** What the routes keep true of the store *)

(** No two users have the same email. *)
Definition emails_unique (w : World) : Prop :=
  ∀ e, (count_email e w ≤ 1)%nat.

(** Every id in use is below the counter of new ids. *)
Definition ids_issued (w : World) : Prop :=
  Forall (λ u, (_id u < next_oid w)%nat) (users w)
  ∧ Forall (λ p, (product_id p < next_oid w)%nat) (products w).

(** The store is consistent: emails and ids are unique, and ids were
    issued by the counter. *)
Definition consistent (w : World) : Prop :=
  emails_unique w
  ∧ NoDup (map _id (users w))
  ∧ NoDup (map product_id (products w))
  ∧ ids_issued w.

(** The requests that the application serves. *)
Inductive Call :=
| PostRegister (salt : string) (req : RegisterRequest)
| PostLogin (now : nat) (req : LoginRequest)
| GetMe (now : nat) (req : Request)
| PostProduct (b : ProductBody)
| GetProducts (h : option string) (page limit : option positive)
| GetBestDeals
| GetFeaturedProducts
| GetProduct (id : nat)
| PutProduct (id : nat) (b : ProductBody)
| GetCategory (c : string)
| PostRate (id : nat) (newRating : option Q)
| DeleteProduct (id : nat).

(** The state after a request is served. *)
Definition serve `{Bcrypt} `{Jws} (env : Env) (w : World) (c : Call) : World :=
  match c with
  | PostRegister salt req => (register salt w req).1
  | PostLogin now req => (login env now w req).1
  | GetMe now req => (me env now w req).1
  | PostProduct b => (post_product w b).1
  | GetProducts h page limit => (get_products w h page limit).1
  | GetBestDeals => (get_best_deals w).1
  | GetFeaturedProducts => (get_featured_products w).1
  | GetProduct id => (get_product w id).1
  | PutProduct id b => (put_product w id b).1
  | GetCategory c => (get_category w c).1
  | PostRate id newRating => (rate w id newRating).1
  | DeleteProduct id => (delete_product w id).1
  end.



(** A body with the four paths that the routes require, and the world
    after the product of this body is created in the catalogue. *)
Definition body_B : ProductBody :=
  {| body_name := Some "Coffee"; body_price := Some 2%Q;
     body_category := Some "drinks"; body_description := Some "A cup of coffee";
     body_imgUrl := None; body_hotel := Some "Ritz";
     body_isFeatured := Some true; body_isBestDeal := None |}.

Definition world_PB : World := (post_product world_P body_B).1.

(** * Theorems *)

(** ** Patterns *)

Lemma append_String (c : ascii) (s t : string) :
  String c s +:+ t = String c (s +:+ t).
Proof. reflexivity. Qed.

Lemma append_empty_r (s : string) : s +:+ "" = s.
Proof.
  induction s as [|c s IH]; [done|]. by rewrite append_String, IH.
Qed.

Lemma append_eq_empty (s t : string) : s +:+ t = "" → s = "" ∧ t = "".
Proof. by destruct s. Qed.

Lemma append_eq_String (s t u : string) (c : ascii) :
  s +:+ t = String c u →
  (s = "" ∧ t = String c u) ∨ (∃ s', s = String c s' ∧ u = s' +:+ t).
Proof.
  destruct s as [|a s]; [by left|].
  rewrite append_String. intros [= -> <-]. right. by exists s.
Qed.

Lemma nullable_lang (r : regex) : nullable r = true ↔ lang r "".
Proof.
  induction r as [| |c| | |r1 IH1 r2 IH2|r1 IH1 r2 IH2|r1 IH1]; simpl.
  - done.
  - done.
  - done.
  - split; [done|]. by intros (c & ? & _).
  - split; [done|]. by intros (c & ?).
  - rewrite orb_true_iff, IH1, IH2. done.
  - rewrite andb_true_iff, IH1, IH2. split.
    + intros [? ?]. by exists "", "".
    + intros (s1 & s2 & Heq & ? & ?). symmetry in Heq.
      apply append_eq_empty in Heq as [-> ->]. done.
  - split; [|done]. intros _. constructor.
Qed.

(** A non-empty string in [L*] begins with a non-empty string of [L]. *)
Lemma star_String (L : string → Prop) (c : ascii) (s : string) :
  star L (String c s) →
  ∃ s1 s2, s = s1 +:+ s2 ∧ L (String c s1) ∧ star L s2.
Proof.
  intros Hstar. remember (String c s) as t eqn:Ht.
  induction Hstar as [|s1 s2 H1 H2 IH]; [done|].
  apply append_eq_String in Ht as [[-> ->]|(s1' & -> & ->)].
  - by apply IH.
  - by exists s1', s2.
Qed.

Lemma deriv_lang (r : regex) (c : ascii) (s : string) :
  lang (deriv c r) s ↔ lang r (String c s).
Proof.
  revert s.
  induction r as [| |a| | |r1 IH1 r2 IH2|r1 IH1 r2 IH2|r1 IH1]; intros s; simpl.
  - done.
  - done.
  - destruct (Ascii.eqb a c) eqn:Hac; simpl.
    + apply Ascii.eqb_eq in Hac as ->. split; [by intros ->|by intros [= ->]].
    + apply Ascii.eqb_neq in Hac. split; [done|]. by intros [= ? ?].
  - destruct (line_terminator c) eqn:Hc; simpl.
    + split; [done|]. intros (a & [= -> ->] & Ha). congruence.
    + split; [intros ->; by exists c|]. by intros (a & [= -> ->] & _).
  - split; [intros ->; by exists c|]. by intros (a & [= -> ->]).
  - by rewrite IH1, IH2.
  - destruct (nullable r1) eqn:Hnull; simpl.
    + split.
      * intros [(s1 & s2 & -> & H1 & H2)|H2].
        -- exists (String c s1), s2. by rewrite <- IH1.
        -- exists "", (String c s). split; [done|].
           split; [by apply nullable_lang|by apply IH2].
      * intros (t1 & t2 & Heq & H1 & H2). symmetry in Heq.
        apply append_eq_String in Heq as [[-> ->]|(s1 & -> & ->)].
        -- right. by apply IH2.
        -- left. exists s1, t2. by rewrite IH1.
    + split.
      * intros (s1 & s2 & -> & H1 & H2).
        exists (String c s1), s2. by rewrite <- IH1.
      * intros (t1 & t2 & Heq & H1 & H2). symmetry in Heq.
        apply append_eq_String in Heq as [[-> ->]|(s1 & -> & ->)].
        -- apply nullable_lang in H1. congruence.
        -- exists s1, t2. by rewrite IH1.
  - split.
    + intros (s1 & s2 & -> & H1 & H2).
      apply (star_cons _ (String c s1) s2); [by apply IH1|done].
    + intros (s1 & s2 & -> & H1 & H2)%star_String.
      exists s1, s2. by rewrite IH1.
Qed.

(** [matches] decides the strings of the pattern. *)
Lemma matches_lang (r : regex) (s : string) : matches r s = true ↔ lang r s.
Proof.
  revert r. induction s as [|c s IH]; intros r; simpl.
  - apply nullable_lang.
  - by rewrite IH, deriv_lang.
Qed.

Lemma star_AnyChar (s : string) : star (lang AnyChar) s.
Proof.
  induction s as [|c s IH]; [constructor|].
  apply (star_cons _ (String c "") s); [by exists c|done].
Qed.

(** [test] finds a substring that the pattern matches. *)
Lemma test_lang (r : regex) (s : string) :
  test r s = true ↔ ∃ pre mid post, s = pre +:+ mid +:+ post ∧ lang r mid.
Proof.
  unfold test. rewrite matches_lang. simpl. split.
  - intros (pre & ? & -> & _ & mid & post & -> & Hmid & _). by exists pre, mid, post.
  - intros (pre & mid & post & -> & Hmid).
    exists pre, (mid +:+ post). split; [done|].
    split; [apply star_AnyChar|].
    exists mid, post. split; [done|]. split; [done|apply star_AnyChar].
Qed.

Lemma star_Dot (s : string) : star (lang Dot) s ↔ one_line s = true.
Proof.
  split.
  - induction 1 as [|s1 s2 (c & -> & Hc) _ IH]; [done|].
    change (String c "" +:+ s2) with (String c s2). simpl. by rewrite Hc, IH.
  - induction s as [|c s IH]; simpl; [constructor|].
    intros [Hc Hs]%andb_prop. apply negb_true_iff in Hc.
    apply (star_cons _ (String c "") s); [by exists c|by apply IH].
Qed.

(** [.+] matches the non-empty strings of one line. *)
Lemma lang_Plus_Dot (s : string) :
  lang (Plus Dot) s ↔ s ≠ "" ∧ one_line s = true.
Proof.
  unfold Plus. simpl. split.
  - intros (s1 & s2 & -> & (c & -> & Hc) & Hs2%star_Dot).
    change (String c "" +:+ s2) with (String c s2). simpl. by rewrite Hc, Hs2.
  - intros [Hne Hs]. destruct s as [|c s]; [done|].
    simpl in Hs. apply andb_prop in Hs as [Hc Hs]. apply negb_true_iff in Hc.
    exists (String c ""), s. split; [done|].
    split; [by exists c|by apply star_Dot].
Qed.

(** What the pattern of the schema asks of an email: somewhere in it,
    a non-empty stretch of one line, "@", another such stretch, ".",
    and another such stretch. *)
Lemma test_email_pattern (s : string) :
  test email_pattern s = true
  ↔ ∃ pre x y z post,
      s = pre +:+ (x +:+ "@" +:+ y +:+ "." +:+ z) +:+ post
      ∧ (x ≠ "" ∧ one_line x = true)
      ∧ (y ≠ "" ∧ one_line y = true)
      ∧ (z ≠ "" ∧ one_line z = true).
Proof.
  rewrite test_lang. unfold email_pattern. split.
  - intros (pre & mid & post & -> & Hmid). cbn [lang] in Hmid.
    destruct Hmid as (x & ? & -> & Hx & ? & ? & -> & -> & y & ? & -> & Hy
                      & ? & z & -> & -> & Hz).
    change (lang (Plus Dot) x) in Hx. change (lang (Plus Dot) y) in Hy.
    change (lang (Plus Dot) z) in Hz.
    apply lang_Plus_Dot in Hx, Hy, Hz. by exists pre, x, y, z, post.
  - intros (pre & x & y & z & post & -> & Hx & Hy & Hz).
    apply lang_Plus_Dot in Hx, Hy, Hz.
    exists pre, (x +:+ "@" +:+ y +:+ "." +:+ z), post. split; [done|].
    exists x, ("@" +:+ y +:+ "." +:+ z). split; [done|]. split; [exact Hx|].
    exists "@", (y +:+ "." +:+ z). split; [done|]. split; [done|].
    exists y, ("." +:+ z). split; [done|]. split; [exact Hy|].
    exists ".", z. split; [done|]. split; [done|exact Hz].
Qed.

Lemma free_of_app (sep : ascii) (a b : string) :
  free_of sep (a +:+ b) = free_of sep a && free_of sep b.
Proof.
  induction a as [|c a IH]; [done|].
  rewrite append_String. simpl. by rewrite IH, andb_assoc.
Qed.

(** An email without "@" fails the pattern. *)
Lemma test_email_pattern_no_at (s : string) :
  free_of "@" s = true → test email_pattern s = false.
Proof.
  intros Hfree. apply not_true_is_false.
  intros (pre & x & y & z & post & -> & _)%test_email_pattern.
  rewrite !free_of_app in Hfree. simpl in Hfree.
  rewrite !andb_false_r, ?andb_false_l in Hfree. simpl in Hfree.
  by rewrite ?andb_false_r in Hfree.
Qed.

(** ** Strings and the store *)

Lemma falsy_Some (s : string) : falsy (Some s) = false ↔ s ≠ "".
Proof. simpl. apply String.eqb_neq. Qed.

Lemma find_None_existsb {A} (f : A → bool) (l : list A) :
  find f l = None → existsb f l = false.
Proof.
  induction l as [|x l IH]; simpl; [done|].
  destruct (f x); [done|]. exact IH.
Qed.

Lemma User_findOne_Ok (w : World) (email : string) (r : option Document) :
  User_findOne w email = Ok r →
  db_failure w = None ∧ find (has_email email) (users w) = r.
Proof.
  unfold User_findOne. destruct (db_failure w); [done|].
  intros [= <-]. done.
Qed.

Lemma User_findOne_Some_has_email (w : World) (email : string) (u : Document) :
  User_findOne w email = Ok (Some u) →
  u ∈ users w ∧ fields u !! "email" = Some (VString email).
Proof.
  intros [_ Hf]%User_findOne_Ok. apply find_some in Hf as [Hin Hb].
  split; [by apply list_elem_of_In|].
  unfold has_email in Hb. by apply bool_decide_eq_true in Hb.
Qed.

(** The lookup answers "none" exactly when the store answers and no
    stored user has the email. *)
Lemma User_findOne_None (w : World) (email : string) :
  User_findOne w email = Ok None
  ↔ db_failure w = None
    ∧ ∀ doc, doc ∈ users w → fields doc !! "email" ≠ Some (VString email).
Proof.
  split.
  - intros [Hdb Hf]%User_findOne_Ok. split; [done|].
    intros doc Hin%list_elem_of_In Hemail.
    apply (find_none _ _ Hf) in Hin. unfold has_email in Hin.
    by apply bool_decide_eq_false in Hin.
  - intros [Hdb Hall]. unfold User_findOne. rewrite Hdb. f_equal.
    destruct (find (has_email email) (users w)) as [doc|] eqn:Hf; [|done].
    apply find_some in Hf as [Hin%list_elem_of_In Hb].
    unfold has_email in Hb. apply bool_decide_eq_true in Hb.
    by destruct (Hall doc Hin).
Qed.

(** It finds a user exactly when the store answers and some stored user
    has the email. *)
Lemma User_findOne_Some (w : World) (email : string) :
  (∃ user, User_findOne w email = Ok (Some user))
  ↔ db_failure w = None
    ∧ ∃ doc, doc ∈ users w ∧ fields doc !! "email" = Some (VString email).
Proof.
  split.
  - intros [user Hfind]. split; [by apply User_findOne_Ok in Hfind as [? _]|].
    exists user. by apply User_findOne_Some_has_email.
  - intros [Hdb (doc & Hin & Hemail)]. unfold User_findOne. rewrite Hdb.
    destruct (find (has_email email) (users w)) as [user|] eqn:Hf; [eauto|].
    apply list_elem_of_In in Hin. apply (find_none _ _ Hf) in Hin.
    unfold has_email in Hin. by apply bool_decide_eq_false in Hin.
Qed.

(** A request with a field missing or empty is answered 400 and the
    store is as before. *)
Lemma register_missing_field `{Bcrypt} (salt : string) (w : World)
    (req : RegisterRequest) :
  falsy (name req) || falsy (email req) || falsy (phone req)
  || falsy (password req) = true →
  register salt w req
  = (w, res_status_json 400 (JMessage "All fields are required")).
Proof. unfold register. by intros ->. Qed.

(** What [new User] keeps of the object of [register]: the schema has no
    path [profilePicture]. *)
Lemma new_User_register_input (oid : nat) (n e ph h pic : string) :
  fields (new_User oid (register_input n e ph h pic))
  = {[ "name" := VString n; "email" := VString e; "phone" := VString ph;
       "password" := VString h ]}.
Proof. reflexivity. Qed.

(** The document [register] builds passes validation exactly when its
    email matches the pattern of the schema. *)
Lemma User_validate_register_input (oid : nat) (n e ph h pic : string) :
  n ≠ "" → e ≠ "" → ph ≠ "" → h ≠ "" →
  User_validate (new_User oid (register_input n e ph h pic))
  = if test email_pattern e then Ok ()
    else Throw "User validation failed: email: Please fill a valid email address".
Proof.
  intros Hn He Hph Hh.
  apply String.eqb_neq in Hn, He, Hph, Hh.
  unfold User_validate, check_required, check_match.
  change (get (new_User oid (register_input n e ph h pic)) "name") with (VString n).
  change (get (new_User oid (register_input n e ph h pic)) "email") with (VString e).
  change (get (new_User oid (register_input n e ph h pic)) "phone") with (VString ph).
  change (get (new_User oid (register_input n e ph h pic)) "password") with (VString h).
  cbv iota beta. rewrite Hn, He, Hph, Hh. simpl orb.
  destruct (test email_pattern e); reflexivity.
Qed.

(** The two ways [register] ends once the fields are there and the email
    is not taken. *)
Lemma register_fresh `{Bcrypt} (salt : string) (w : World)
    (req : RegisterRequest) (n e ph pw : string) :
  name req = Some n → email req = Some e → phone req = Some ph →
  password req = Some pw →
  n ≠ "" → e ≠ "" → ph ≠ "" → pw ≠ "" →
  bcrypt_hash salt pw 10 ≠ "" →
  User_findOne w e = Ok None →
  let newUser :=
    new_User (next_oid w)
      (register_input n e ph (bcrypt_hash salt pw 10)
         (match file req with Some path => path | None => "" end)) in
  register salt w req
  = if test email_pattern e
    then (set_users (take_oid w).2 (users w ++ [newUser])%list,
          res_status_json 201
            (JRegistered "User registered successfully"
               (JSON_stringify (user_info newUser))))
    else ((take_oid w).2,
          res_status_json 500
            (JError "Server error"
               "User validation failed: email: Please fill a valid email address")).
Proof.
  intros Hn He Hph Hpw Hn0 He0 Hph0 Hpw0 Hh0 Hfind newUser.
  unfold register. rewrite Hn, He, Hph, Hpw.
  rewrite (proj2 (falsy_Some n) Hn0), (proj2 (falsy_Some e) He0),
    (proj2 (falsy_Some ph) Hph0), (proj2 (falsy_Some pw) Hpw0).
  simpl orb. cbv iota. rewrite Hfind.
  apply User_findOne_Ok in Hfind as [Hdb Hnone].
  unfold take_oid. cbv zeta iota beta.
  fold (register_input n e ph (bcrypt_hash salt pw 10)
          (match file req with Some path => path | None => "" end)).
  fold newUser. unfold User_save.
  unfold newUser at 1.
  rewrite User_validate_register_input by done.
  destruct (test email_pattern e); [|reflexivity].
  cbn [db_failure]. rewrite Hdb.
  change (get newUser "email") with (VString e).
  cbn [users]. rewrite (find_None_existsb _ _ Hnone). reflexivity.
Qed.

Lemma find_app_None {A} (f : A → bool) (l : list A) (x : A) :
  find f l = None → f x = true → find f (l ++ [x])%list = Some x.
Proof.
  induction l as [|y l IH]; simpl; intros Hl Hx.
  - by rewrite Hx.
  - destruct (f y); [done|]. by apply IH.
Qed.

(** The user info never has a [password], whatever the document. *)
Lemma user_info_no_password (doc : Document) :
  JSON_stringify (user_info doc) !! "password" = None.
Proof.
  unfold JSON_stringify. apply map_lookup_filter_None. left. reflexivity.
Qed.

(** The user info never has a [profilePicture] either: it is not a path
    of the schema. *)
Lemma user_info_no_profilePicture (doc : Document) :
  JSON_stringify (user_info doc) !! "profilePicture" = None.
Proof.
  unfold JSON_stringify. apply map_lookup_filter_None. right.
  intros v Hv Hdef. apply Hdef. by injection Hv as <-.
Qed.

(** The keys of the user info are among the five of the object literal. *)
Lemma user_info_dom (doc : Document) :
  dom (JSON_stringify (user_info doc))
  ⊆ ({[ "id"; "name"; "email"; "phone"; "profilePicture" ]} : gset string).
Proof.
  unfold JSON_stringify. etrans; [apply dom_filter_subseteq|].
  unfold user_info. rewrite !dom_insert, dom_singleton. set_solver.
Qed.

(** ** The small instances meet what is assumed of the libraries *)

Lemma mark_bcrypt_nonempty (s : string) (rounds : nat) (salt : string) :
  @bcrypt_digest mark_bcrypt s rounds salt ≠ "".
Proof. done. Qed.

Lemma mark_bcrypt_not_plain (s : string) (rounds : nat) (salt : string) :
  @bcrypt_digest mark_bcrypt s rounds salt ≠ s.
Proof.
  simpl. intros Heq. apply (f_equal String.length) in Heq. simpl in Heq. lia.
Qed.

Lemma mark_bcrypt_check_digest (s : string) (rounds : nat) (salt : string) :
  @bcrypt_check mark_bcrypt s (@bcrypt_digest mark_bcrypt s rounds salt) = true.
Proof. simpl. apply String.eqb_refl. Qed.

(** ** Register *)

Section Register.
Context `{Bcrypt}.

Hypothesis bcrypt_digest_nonempty :
  ∀ s rounds salt, bcrypt_digest s rounds salt ≠ "".
Hypothesis bcrypt_digest_not_plain :
  ∀ s rounds salt, bcrypt_digest s rounds salt ≠ s.

(** C1, as the code has it. A register request whose four fields
    are present and not empty, whose email matches the pattern of the
    schema and is not stored yet, while the store answers, is answered
    201. The record it persists (the one a lookup of the email now finds)
    has as its password the bcrypt hash of the plaintext at work factor
    10, which is not the plaintext. The user of the body has the stored
    id, name, email and phone, has no key outside id, name, email, phone
    and profilePicture, and has no password. *)
Theorem register_persists_hash_and_answers_user_info
    (salt : string) (w : World) (req : RegisterRequest) (n e ph pw : string) :
  name req = Some n → email req = Some e → phone req = Some ph →
  password req = Some pw →
  n ≠ "" → e ≠ "" → ph ≠ "" → pw ≠ "" →
  test email_pattern e = true →
  User_findOne w e = Ok None →
  ∃ (newUser : Document) (info : gmap string value),
    users (register salt w req).1 = (users w ++ [newUser])%list
    ∧ User_findOne (register salt w req).1 e = Ok (Some newUser)
    ∧ get newUser "password" = VString (bcrypt_hash salt pw 10)
    ∧ get newUser "password" ≠ VString pw
    ∧ (register salt w req).2
      = res_status_json 201 (JRegistered "User registered successfully" info)
    ∧ info !! "id" = Some (VObjectId (_id newUser))
    ∧ info !! "name" = Some (VString n)
    ∧ info !! "email" = Some (VString e)
    ∧ info !! "phone" = Some (VString ph)
    ∧ dom info ⊆ ({[ "id"; "name"; "email"; "phone"; "profilePicture" ]}
                   : gset string)
    ∧ info !! "password" = None.
Proof.
  intros Hn He Hph Hpw Hn0 He0 Hph0 Hpw0 Hmatch Hfind.
  pose proof (register_fresh salt w req n e ph pw Hn He Hph Hpw Hn0 He0 Hph0
                Hpw0 (bcrypt_digest_nonempty _ _ _) Hfind) as Hreg.
  cbv zeta in Hreg. rewrite Hmatch in Hreg. rewrite Hreg. clear Hreg.
  apply User_findOne_Ok in Hfind as [Hdb Hnone].
  eexists _, _. cbn [fst snd users set_users take_oid].
  split; [reflexivity|]. split.
  { unfold User_findOne. cbn [db_failure users]. rewrite Hdb. f_equal.
    apply find_app_None; [done|].
    unfold has_email. by apply bool_decide_eq_true. }
  split; [reflexivity|]. split.
  { change (VString (bcrypt_hash salt pw 10) ≠ VString pw).
    intros [= Heq]. by apply (bcrypt_digest_not_plain pw 10 salt). }
  split; [reflexivity|].
  repeat (split; [reflexivity|]).
  split; [apply user_info_dom | apply user_info_no_password].
Qed.

(** C6, as the code has it. A register request whose four fields
    are present and not empty and whose email, not stored yet, fails the
    pattern of the schema is answered 500, "Server error", with the
    message of the validation error; no user is stored. *)
Theorem register_malformed_email_is_server_error
    (salt : string) (w : World) (req : RegisterRequest) (n e ph pw : string) :
  name req = Some n → email req = Some e → phone req = Some ph →
  password req = Some pw →
  n ≠ "" → e ≠ "" → ph ≠ "" → pw ≠ "" →
  test email_pattern e = false →
  User_findOne w e = Ok None →
  (register salt w req).2
  = res_status_json 500
      (JError "Server error"
         "User validation failed: email: Please fill a valid email address")
  ∧ users (register salt w req).1 = users w.
Proof.
  intros Hn He Hph Hpw Hn0 He0 Hph0 Hpw0 Hmatch Hfind.
  pose proof (register_fresh salt w req n e ph pw Hn He Hph Hpw Hn0 He0 Hph0
                Hpw0 (bcrypt_digest_nonempty _ _ _) Hfind) as Hreg.
  cbv zeta in Hreg. rewrite Hmatch in Hreg. rewrite Hreg. done.
Qed.

End Register.

Lemma register_persists_hash_and_answers_user_info_witness :
  ∃ (newUser : Document) (info : gmap string value),
    users (@register mark_bcrypt "salt" empty_world request_A).1
    = (users empty_world ++ [newUser])%list
    ∧ User_findOne (@register mark_bcrypt "salt" empty_world request_A).1
        "a@x.com" = Ok (Some newUser)
    ∧ get newUser "password" = VString (@bcrypt_hash mark_bcrypt "salt" "pw12345" 10)
    ∧ get newUser "password" ≠ VString "pw12345"
    ∧ (@register mark_bcrypt "salt" empty_world request_A).2
      = res_status_json 201 (JRegistered "User registered successfully" info)
    ∧ info !! "id" = Some (VObjectId (_id newUser))
    ∧ info !! "name" = Some (VString "A")
    ∧ info !! "email" = Some (VString "a@x.com")
    ∧ info !! "phone" = Some (VString "1")
    ∧ dom info ⊆ ({[ "id"; "name"; "email"; "phone"; "profilePicture" ]}
                   : gset string)
    ∧ info !! "password" = None.
Proof.
  apply (@register_persists_hash_and_answers_user_info mark_bcrypt
           mark_bcrypt_nonempty mark_bcrypt_not_plain
           "salt" empty_world request_A "A" "a@x.com" "1" "pw12345");
    first [reflexivity | discriminate].
Defined.

(** C1 as stated fails twice. The request with the email "abc" has its
    four fields present and not empty and its email is not stored, yet
    it is answered 500 and nothing is persisted. The request of the
    scenario is answered 201, and the user of its body has the keys id,
    name, email and phone only: profilePicture is not among them. *)
Lemma register_claim_counterexample :
  (falsy (name request_abc) || falsy (email request_abc)
   || falsy (phone request_abc) || falsy (password request_abc) = false
   ∧ User_findOne empty_world "abc" = Ok None
   ∧ status (@register mark_bcrypt "salt" empty_world request_abc).2 = 500
   ∧ users (@register mark_bcrypt "salt" empty_world request_abc).1 = [])
  ∧ (status (@register mark_bcrypt "salt" empty_world request_A).2 = 201
     ∧ ∃ info,
         body_user (body (@register mark_bcrypt "salt" empty_world request_A).2)
         = Some info
         ∧ dom info = ({[ "id"; "name"; "email"; "phone" ]} : gset string)
         ∧ info !! "profilePicture" = None).
Proof.
  split; [by vm_compute|]. split; [reflexivity|].
  eexists. split; [reflexivity|]. split; reflexivity.
Qed.

Lemma register_malformed_email_is_server_error_witness :
  (@register mark_bcrypt "salt" empty_world request_abc).2
  = res_status_json 500
      (JError "Server error"
         "User validation failed: email: Please fill a valid email address")
  ∧ users (@register mark_bcrypt "salt" empty_world request_abc).1
    = users empty_world.
Proof.
  apply (@register_malformed_email_is_server_error mark_bcrypt
           mark_bcrypt_nonempty
           "salt" empty_world request_abc "A" "abc" "1" "pw12345");
    first [reflexivity | discriminate].
Defined.

(** C6 as stated fails: the request with the email "abc", which has no
    "@", is not answered 400. *)
Lemma register_malformed_email_counterexample :
  test email_pattern "abc" = false
  ∧ status (@register mark_bcrypt "salt" empty_world request_abc).2 = 500
  ∧ status (@register mark_bcrypt "salt" empty_world request_abc).2 ≠ 400.
Proof. split; [reflexivity|]. split; [reflexivity|]. by vm_compute. Qed.

(** C4. When a lookup of the email finds a stored user, a register
    request with that email (its four fields present and not empty) is
    answered 400, "User already exists", and the state of the store is
    the one before: as many records have that email as before, at least
    one, and exactly one if it was one. *)
Theorem register_existing_email_conflict `{Bcrypt}
    (salt : string) (w : World) (req : RegisterRequest) (n e ph pw : string)
    (existingUser : Document) :
  name req = Some n → email req = Some e → phone req = Some ph →
  password req = Some pw →
  n ≠ "" → e ≠ "" → ph ≠ "" → pw ≠ "" →
  User_findOne w e = Ok (Some existingUser) →
  register salt w req
  = (w, res_status_json 400 (JMessage "User already exists"))
  ∧ count_email e (register salt w req).1 = count_email e w
  ∧ (1 ≤ count_email e (register salt w req).1)%nat
  ∧ (count_email e w = 1 → count_email e (register salt w req).1 = 1).
Proof.
  intros Hn He Hph Hpw Hn0 He0 Hph0 Hpw0 Hfind.
  assert (register salt w req
          = (w, res_status_json 400 (JMessage "User already exists"))) as ->.
  { unfold register. rewrite Hn, He, Hph, Hpw.
    rewrite (proj2 (falsy_Some n) Hn0), (proj2 (falsy_Some e) He0),
      (proj2 (falsy_Some ph) Hph0), (proj2 (falsy_Some pw) Hpw0).
    simpl orb. cbv iota. by rewrite Hfind. }
  cbn [fst]. repeat split; [|done].
  apply User_findOne_Some_has_email in Hfind as [Hin Hemail].
  unfold count_email.
  assert (existingUser ∈ filter (λ doc, has_email e doc = true) (users w)) as Hf.
  { apply list_elem_of_filter. split; [|done].
    unfold has_email. by apply bool_decide_eq_true. }
  destruct (filter _ (users w)); [by apply elem_of_nil in Hf|simpl; lia].
Qed.

Lemma register_existing_email_conflict_witness :
  @register mark_bcrypt "salt2" world_A request_A
  = (world_A, res_status_json 400 (JMessage "User already exists"))
  ∧ count_email "a@x.com" (@register mark_bcrypt "salt2" world_A request_A).1
    = count_email "a@x.com" world_A
  ∧ (1 ≤ count_email "a@x.com" (@register mark_bcrypt "salt2" world_A request_A).1)%nat
  ∧ (count_email "a@x.com" world_A = 1
     → count_email "a@x.com" (@register mark_bcrypt "salt2" world_A request_A).1 = 1).
Proof.
  apply (@register_existing_email_conflict mark_bcrypt "salt2" world_A request_A
           "A" "a@x.com" "1" "pw12345" user_A);
    try discriminate; by vm_compute.
Defined.

(** Whatever the request, the user of a 201 body has no profilePicture:
    it reads as undefined on the new document and is not written. *)
Lemma register_info_without_profilePicture `{Bcrypt}
    (salt : string) (w : World) (req : RegisterRequest)
    (info : gmap string value) :
  body_user (body (register salt w req).2) = Some info →
  info !! "profilePicture" = None.
Proof.
  unfold register.
  destruct (falsy (name req) || falsy (email req) || falsy (phone req)
            || falsy (password req)); [intros [=]|].
  destruct (name req) as [n|]; [|intros [=]].
  destruct (email req) as [e|]; [|intros [=]].
  destruct (phone req) as [ph|]; [|intros [=]].
  destruct (password req) as [pw|]; [|intros [=]].
  destruct (User_findOne w e) as [[?|]|]; [intros [=]| |intros [=]].
  cbv zeta. unfold take_oid.
  destruct (User_save _ _) as [w2 [[]|]]; [|intros [=]].
  cbn [snd body res_status_json body_user].
  intros Heq%(inj Some). subst info. apply user_info_no_profilePicture.
Qed.

(** So has the user of a 200 body of the login route. *)
Lemma login_info_without_profilePicture `{Bcrypt} `{Jws}
    (env : Env) (now : nat) (w : World) (req : LoginRequest)
    (info : gmap string value) :
  body_user (body (login env now w req).2) = Some info →
  info !! "profilePicture" = None.
Proof.
  unfold login.
  destruct (User_findOne w _) as [[user|]|]; [|intros [=]..].
  destruct (bcrypt_compare _ _) as [[]|]; [|intros [=]..].
  cbn [snd body res_status_json body_user].
  intros Heq%(inj Some). subst info. apply user_info_no_profilePicture.
Qed.

(** ** Splitting a header *)

Lemma split_nonempty (sep : ascii) (s : string) : split sep s ≠ [].
Proof.
  destruct s as [|c s]; simpl; [done|].
  destruct (Ascii.eqb c sep); [done|]. by destruct (split sep s).
Qed.

(** A string without the separator is its own single segment. *)
Lemma split_free_of (sep : ascii) (s : string) :
  free_of sep s = true → split sep s = [s].
Proof.
  induction s as [|c s IH]; simpl; [done|].
  intros [Hc Hs]%andb_prop. apply negb_true_iff in Hc. rewrite Hc.
  by rewrite (IH Hs).
Qed.

(** The first segment ends at the first separator. *)
Lemma split_first (sep : ascii) (a b : string) :
  free_of sep a = true →
  split sep (a +:+ String sep b) = a :: split sep b.
Proof.
  induction a as [|c a IH]; simpl.
  - intros _. by rewrite Ascii.eqb_refl.
  - intros [Hc Ha]%andb_prop. apply negb_true_iff in Hc. rewrite Hc.
    by rewrite (IH Ha).
Qed.

(** The second segment of [scheme token rest], where [rest] is empty or
    begins at the next space. *)
Lemma split_second (scheme token rest : string) :
  free_of " " scheme = true → free_of " " token = true →
  rest = "" ∨ (∃ t, rest = String " " t) →
  split " " (scheme +:+ " " +:+ token +:+ rest) !! 1%nat = Some token.
Proof.
  intros Hs Ht Hrest.
  change (scheme +:+ " " +:+ token +:+ rest)
    with (scheme +:+ String " " (token +:+ rest)).
  rewrite split_first by done. simpl.
  destruct Hrest as [->|[t ->]].
  - rewrite append_empty_r. by rewrite split_free_of.
  - by rewrite split_first.
Qed.

(** ** The authorization guard *)

(** The guard in terms of the token segment. *)
Lemma authMiddleware_token_segment `{Jws} (env : Env) (now : nat)
    (req : Request) :
  authMiddleware env now req
  = match token_segment req with
    | None => Respond no_token
    | Some token =>
        match jwt_verify token (JWT_SECRET env) now with
        | Ok decoded => Next decoded
        | Throw _ => Respond invalid_token
        end
    end.
Proof.
  unfold authMiddleware, token_segment.
  destruct (header req "Authorization") as [h|]; [|done].
  destruct (split " " h !! 1%nat) as [[|c t]|]; done.
Qed.

(** [jwt.verify] returns the payload exactly of a token that decodes, has
    the signature of its payload under the secret, and is not expired. *)
Lemma jwt_verify_Ok `{Jws} (token secret : string) (now : nat)
    (claims : Claims.t) :
  jwt_verify token secret now = Ok claims
  ↔ ∃ signature,
      jws_decode token = Some (claims, signature)
      ∧ signature = hs256 secret claims
      ∧ (now < Claims.exp claims)%nat.
Proof.
  unfold jwt_verify. split.
  - destruct (jws_decode token) as [[payload signature]|]; [|done].
    destruct (String.eqb signature (hs256 secret payload)) eqn:Hsig; [|done].
    simpl negb. cbv iota.
    destruct (Claims.exp payload <=? now)%nat eqn:Hexp; [done|].
    intros [= ->]. exists signature. split; [done|].
    split; [by apply String.eqb_eq|]. apply Nat.leb_gt in Hexp. lia.
  - intros (signature & -> & -> & Hexp).
    rewrite String.eqb_refl. simpl negb. cbv iota.
    apply Nat.leb_gt in Hexp. by rewrite Hexp.
Qed.

(** [jwt.verify] throws on a token that does not decode, on a signature
    that is not the one of the payload, and on an expiry that is reached,
    whatever the signature. *)
Lemma jwt_verify_Throw `{Jws} (token secret : string) (now : nat) :
  jws_decode token = None
  ∨ (∃ payload signature,
       jws_decode token = Some (payload, signature)
       ∧ (signature ≠ hs256 secret payload
          ∨ (Claims.exp payload ≤ now)%nat)) →
  ∃ e, jwt_verify token secret now = Throw e.
Proof.
  unfold jwt_verify. intros [->|(payload & signature & -> & Hbad)]; [eauto|].
  destruct (String.eqb signature (hs256 secret payload)) eqn:Hsig;
    simpl negb; cbv iota; [|eauto].
  apply String.eqb_eq in Hsig.
  destruct Hbad as [?|Hexp]; [done|].
  apply Nat.leb_le in Hexp. rewrite Hexp. eauto.
Qed.

Lemma token_segment_Some (req : Request) (token : string) :
  token_segment req = Some token
  ↔ ∃ h, header req "Authorization" = Some h
         ∧ split " " h !! 1%nat = Some token ∧ token ≠ "".
Proof.
  unfold token_segment. split.
  - destruct (header req "Authorization") as [h|]; [|done].
    destruct (split " " h !! 1%nat) as [[|c t]|] eqn:Hs; [done| |done].
    intros [= <-]. by exists h.
  - intros (h & -> & -> & Hne). by destruct token.
Qed.

Lemma token_segment_None (req : Request) :
  token_segment req = None
  ↔ header req "Authorization" = None
    ∨ ∃ h, header req "Authorization" = Some h
           ∧ (split " " h !! 1%nat = None ∨ split " " h !! 1%nat = Some "").
Proof.
  unfold token_segment. split.
  - destruct (header req "Authorization") as [h|]; [|by left].
    destruct (split " " h !! 1%nat) as [[|c t]|] eqn:Hs; [|done|];
      intros _; right; exists h; auto.
  - intros [->|(h & -> & [->| ->])]; done.
Qed.

(** C5. The guard calls [next()] with the claims if and only if the
    header has a token segment (a second segment, not empty) that decodes
    to these claims, carries their signature under the secret of the
    server and is not expired. Without the header or without a token
    segment it answers 401 "no token"; with a token segment that does
    not decode, or whose signature is not that of its payload, or whose
    expiry is reached (whatever the signature), it answers 401 "not
    valid". The route behind the guard answers with the claims; it leaves
    the store as it is and its answer does not depend on the store. *)
Theorem authMiddleware_authorizes_iff `{Jws} (env : Env) (now : nat)
    (req : Request) :
  (∀ claims,
     authMiddleware env now req = Next claims
     ↔ ∃ h token signature,
         header req "Authorization" = Some h
         ∧ split " " h !! 1%nat = Some token ∧ token ≠ ""
         ∧ jws_decode token = Some (claims, signature)
         ∧ signature = hs256 (JWT_SECRET env) claims
         ∧ (now < Claims.exp claims)%nat)
  ∧ (header req "Authorization" = None
     ∨ (∃ h, header req "Authorization" = Some h
             ∧ (split " " h !! 1%nat = None ∨ split " " h !! 1%nat = Some "")) →
     authMiddleware env now req = Respond no_token)
  ∧ (∀ h token,
       header req "Authorization" = Some h →
       split " " h !! 1%nat = Some token → token ≠ "" →
       jws_decode token = None
       ∨ (∃ payload signature,
            jws_decode token = Some (payload, signature)
            ∧ (signature ≠ hs256 (JWT_SECRET env) payload
               ∨ (Claims.exp payload ≤ now)%nat)) →
       authMiddleware env now req = Respond invalid_token)
  ∧ (∀ w claims,
       authMiddleware env now req = Next claims →
       me env now w req = (w, res_status_json 200 (JClaims claims)))
  ∧ (∀ w w',
       (me env now w req).1 = w
       ∧ (me env now w req).2 = (me env now w' req).2).
Proof.
  rewrite authMiddleware_token_segment.
  split; [|split; [|split; [|split]]].
  - intros claims. split.
    + destruct (token_segment req) as [token|] eqn:Hseg; [|done].
      apply token_segment_Some in Hseg as (h & Hh & Hs & Hne).
      destruct (jwt_verify token (JWT_SECRET env) now) as [decoded|] eqn:Hv;
        [|done].
      intros [= ->]. apply jwt_verify_Ok in Hv as (signature & ? & ? & ?).
      by exists h, token, signature.
    + intros (h & token & signature & Hh & Hs & Hne & Hd & Hsig & Hexp).
      assert (token_segment req = Some token) as ->.
      { apply token_segment_Some. by exists h. }
      assert (jwt_verify token (JWT_SECRET env) now = Ok claims) as ->; [|done].
      apply jwt_verify_Ok. by exists signature.
  - intros Hnone. apply token_segment_None in Hnone. by rewrite Hnone.
  - intros h token Hh Hs Hne Hbad.
    assert (token_segment req = Some token) as ->.
    { apply token_segment_Some. by exists h. }
    by apply (jwt_verify_Throw token (JWT_SECRET env) now) in Hbad as [e ->].
  - intros w claims Hnext. unfold me.
    rewrite authMiddleware_token_segment. by rewrite Hnext.
  - intros w w'. unfold me.
    by destruct (authMiddleware env now req).
Qed.

(** Of a header "scheme token", the guard verifies the token. *)
Lemma authMiddleware_second_segment `{Jws} (env : Env) (now : nat)
    (req : Request) (scheme token rest : string) :
  free_of " " scheme = true → free_of " " token = true → token ≠ "" →
  rest = "" ∨ (∃ t, rest = String " " t) →
  header req "Authorization" = Some (scheme +:+ " " +:+ token +:+ rest) →
  authMiddleware env now req
  = match jwt_verify token (JWT_SECRET env) now with
    | Ok decoded => Next decoded
    | Throw _ => Respond invalid_token
    end.
Proof.
  intros Hs Ht Hne Hrest Hh. rewrite authMiddleware_token_segment.
  assert (token_segment req = Some token) as ->; [|done].
  apply token_segment_Some. eexists. split; [done|].
  split; [by apply split_second|done].
Qed.

(** A header without a space has no token segment. *)
Lemma authMiddleware_single_segment `{Jws} (env : Env) (now : nat)
    (req : Request) (h : string) :
  free_of " " h = true → header req "Authorization" = Some h →
  authMiddleware env now req = Respond no_token.
Proof.
  intros Hfree Hh. rewrite authMiddleware_token_segment.
  assert (token_segment req = None) as ->; [|done].
  apply token_segment_None. right. exists h. split; [done|].
  left. by rewrite split_free_of.
Qed.

(** C10. The guard does not look at the scheme: of a header
    "scheme token", with any word (even the empty one) for the scheme,
    and whatever follows a further space, it verifies the token, accepts
    it if it verifies and answers 401 "not valid" if not. A header of a
    single segment, with no space, is answered 401 "no token", whatever
    the segment is. *)
Theorem authMiddleware_ignores_scheme `{Jws} (env : Env) (now : nat)
    (req : Request) :
  (∀ scheme token rest,
     free_of " " scheme = true → free_of " " token = true → token ≠ "" →
     rest = "" ∨ (∃ t, rest = String " " t) →
     header req "Authorization" = Some (scheme +:+ " " +:+ token +:+ rest) →
     authMiddleware env now req
     = match jwt_verify token (JWT_SECRET env) now with
       | Ok decoded => Next decoded
       | Throw _ => Respond invalid_token
       end)
  ∧ (∀ h,
       free_of " " h = true → header req "Authorization" = Some h →
       authMiddleware env now req = Respond no_token).
Proof.
  split.
  - intros scheme token rest. apply authMiddleware_second_segment.
  - intros h. apply authMiddleware_single_segment.
Qed.

(** ** The unary tokens meet what is assumed of the library *)

Lemma read_ones_ones (n : nat) (rest : string) :
  read_ones (ones n +:+ "." +:+ rest) = (n, "." +:+ rest).
Proof.
  induction n as [|n IH]; [reflexivity|].
  change (read_ones (ones (S n) +:+ "." +:+ rest))
    with (let (m, r) := read_ones (ones n +:+ "." +:+ rest) in (S m, r)).
  by rewrite IH.
Qed.

Lemma unary_decode_encode (payload : Claims.t) (signature : string) :
  @jws_decode unary_jws (@jws_encode unary_jws payload signature)
  = Some (payload, signature).
Proof.
  destruct payload as [i t e].
  change (unary_decode (ones i +:+ "." +:+ ones t +:+ "." +:+ ones e +:+ "."
                        +:+ signature)
          = Some ({| Claims.id := i; Claims.iat := t; Claims.exp := e |},
                  signature)).
  unfold unary_decode. rewrite read_ones_ones.
  change (read_dot ("." +:+ ?x)) with (Some x). cbn [mbind option_bind].
  rewrite read_ones_ones.
  change (read_dot ("." +:+ ?x)) with (Some x). cbn [mbind option_bind].
  rewrite read_ones_ones. reflexivity.
Qed.

Lemma free_of_ones (n : nat) : free_of " " (ones n) = true.
Proof. induction n; [done|]. simpl. exact IHn. Qed.

Lemma unary_compact (secret : string) (payload : Claims.t) :
  free_of " " (@jws_encode unary_jws payload (@hs256 unary_jws secret payload))
  = true
  ∧ @jws_encode unary_jws payload (@hs256 unary_jws secret payload) ≠ "".
Proof.
  simpl. split.
  - rewrite !free_of_app, !free_of_ones. reflexivity.
  - destruct (ones (Claims.id payload)); discriminate.
Qed.

(** ** Login *)

Section Login.
Context `{Bcrypt} `{Jws}.

Hypothesis jws_decode_encode :
  ∀ payload signature,
    jws_decode (jws_encode payload signature) = Some (payload, signature).
Hypothesis jws_compact :
  ∀ secret payload,
    free_of " " (jws_encode payload (hs256 secret payload)) = true
    ∧ jws_encode payload (hs256 secret payload) ≠ "".

(** A token is verified under the secret it was signed with, until it
    expires one hour after it was issued. *)
Lemma jwt_verify_sign (id : nat) (secret : string) (now later : nat) :
  (later < now + 3600)%nat →
  jwt_verify (jwt_sign id secret now) secret later
  = Ok {| Claims.id := id; Claims.iat := now; Claims.exp := now + 3600 |}.
Proof.
  intros Hlater. apply jwt_verify_Ok. eexists. unfold jwt_sign.
  split; [apply jws_decode_encode|]. split; [reflexivity|exact Hlater].
Qed.

(** A token of [jwt.sign], sent as "Bearer token" within the hour,
    passes the guard with the id it was signed for. *)
Lemma authMiddleware_bearer_signed (env : Env) (id now later : nat)
    (request : Request) :
  (later < now + 3600)%nat →
  header request "Authorization"
  = Some ("Bearer " +:+ jwt_sign id (JWT_SECRET env) now) →
  authMiddleware env later request
  = Next {| Claims.id := id; Claims.iat := now; Claims.exp := now + 3600 |}.
Proof.
  intros Hlater Hh.
  destruct (jws_compact (JWT_SECRET env)
              {| Claims.id := id; Claims.iat := now;
                 Claims.exp := now + 3600 |}) as [Hfree Hne].
  rewrite (authMiddleware_second_segment env later request
             "Bearer" (jwt_sign id (JWT_SECRET env) now) "");
    [| done | exact Hfree | exact Hne | by left
     | by rewrite append_empty_r].
  by rewrite jwt_verify_sign.
Qed.

(** C2. When the lookup of the email of a login request finds a
    user and the password of the request passes the check against the
    stored hash, the request is answered 200 with a token; presented as
    "Bearer token" within the hour, under the same secret, it passes the
    guard, and the id of the claims is the stored id of the user. *)
Theorem login_token_passes_guard (env : Env) (now : nat) (w : World)
    (req : LoginRequest) (user : Document) :
  User_findOne w (login_email req) = Ok (Some user) →
  bcrypt_compare (login_password req) (get user "password") = Ok true →
  ∃ token,
    login env now w req
    = (w, res_status_json 200 (JLogin token (JSON_stringify (user_info user))))
    ∧ ∀ later request,
        (later < now + 3600)%nat →
        header request "Authorization" = Some ("Bearer " +:+ token) →
        ∃ claims,
          authMiddleware env later request = Next claims
          ∧ Claims.id claims = _id user.
Proof.
  intros Hfind Hcmp. exists (jwt_sign (_id user) (JWT_SECRET env) now).
  split.
  { unfold login. by rewrite Hfind, Hcmp. }
  intros later request Hlater Hh.
  rewrite (authMiddleware_bearer_signed env (_id user) now later request)
    by done.
  by eexists.
Qed.

(** C3. A login request whose email no stored user has, and a
    login request whose email a stored user has but whose password fails
    the check against the stored hash, get the same answer: 400,
    "Invalid email or password". *)
Theorem login_failures_same_answer (env : Env) (now1 now2 : nat)
    (w1 w2 : World) (req1 req2 : LoginRequest) (user : Document) :
  User_findOne w1 (login_email req1) = Ok None →
  User_findOne w2 (login_email req2) = Ok (Some user) →
  bcrypt_compare (login_password req2) (get user "password") = Ok false →
  (login env now1 w1 req1).2 = (login env now2 w2 req2).2
  ∧ (login env now1 w1 req1).2
    = res_status_json 400 (JMessage "Invalid email or password").
Proof.
  intros Hnone Hsome Hcmp. unfold login.
  by rewrite Hnone, Hsome, Hcmp.
Qed.

(** C8, as the code has it. A login request during which the lookup in
    the store or the comparison of the password throws is answered 500,
    with the message of the error; the store is as before. *)
Theorem login_internal_failure_is_500 (env : Env) (now : nat) (w : World)
    (req : LoginRequest) (e : string) :
  User_findOne w (login_email req) = Throw e
  ∨ (∃ user,
       User_findOne w (login_email req) = Ok (Some user)
       ∧ bcrypt_compare (login_password req) (get user "password") = Throw e) →
  login env now w req = (w, res_status_json 500 (JMessage e))
  ∧ status (login env now w req).2 = 500.
Proof.
  unfold login. intros [->|(user & -> & ->)]; done.
Qed.

End Login.

(** ** The scenario of the specification, for every request *)

Section Scenario.
Context `{Bcrypt} `{Jws}.

Hypothesis bcrypt_digest_nonempty :
  ∀ s rounds salt, bcrypt_digest s rounds salt ≠ "".
Hypothesis bcrypt_check_digest :
  ∀ s rounds salt, bcrypt_check s (bcrypt_digest s rounds salt) = true.
Hypothesis jws_decode_encode :
  ∀ payload signature,
    jws_decode (jws_encode payload signature) = Some (payload, signature).
Hypothesis jws_compact :
  ∀ secret payload,
    free_of " " (jws_encode payload (hs256 secret payload)) = true
    ∧ jws_encode payload (hs256 secret payload) ≠ "".

(** After a registration that is answered 201, a login with the same
    email and password is answered 200 with a token; within the hour the
    route behind the guard answers "Bearer token" with claims whose id
    is the id the registration gave, and answers 401 without a header. *)
Theorem register_then_login_then_me (salt : string) (env : Env)
    (now : nat) (w : World) (req : RegisterRequest) (n e ph pw : string) :
  name req = Some n → email req = Some e → phone req = Some ph →
  password req = Some pw →
  n ≠ "" → e ≠ "" → ph ≠ "" → pw ≠ "" →
  test email_pattern e = true →
  User_findOne w e = Ok None →
  let w' := (register salt w req).1 in
  status (register salt w req).2 = 201
  ∧ ∃ token info,
      login env now w' {| login_email := e; login_password := Some pw |}
      = (w', res_status_json 200 (JLogin token info))
      ∧ info !! "id" = Some (VObjectId (next_oid w))
      ∧ ∀ later,
          (later < now + 3600)%nat →
          me env later w' (with_authorization ("Bearer " +:+ token))
          = (w', res_status_json 200
                   (JClaims {| Claims.id := next_oid w; Claims.iat := now;
                               Claims.exp := now + 3600 |}))
          ∧ me env later w' {| headers := ∅ |} = (w', no_token).
Proof.
  intros Hn He Hph Hpw Hn0 He0 Hph0 Hpw0 Hmatch Hfind.
  pose proof (register_fresh salt w req n e ph pw Hn He Hph Hpw Hn0 He0 Hph0
                Hpw0 (bcrypt_digest_nonempty _ _ _) Hfind) as Hreg.
  cbv zeta in Hreg. rewrite Hmatch in Hreg. rewrite Hreg. clear Hreg.
  apply User_findOne_Ok in Hfind as [Hdb Hnone].
  cbn [fst snd status res_status_json]. split; [reflexivity|].
  set (newUser := new_User (next_oid w) _).
  set (w' := set_users _ _).
  assert (User_findOne w' e = Ok (Some newUser)) as Hfound.
  { unfold User_findOne, w'. cbn [db_failure users set_users take_oid snd].
    rewrite Hdb. f_equal. apply find_app_None; [done|].
    unfold has_email. by apply bool_decide_eq_true. }
  exists (jwt_sign (_id newUser) (JWT_SECRET env) now),
    (JSON_stringify (user_info newUser)).
  split.
  { unfold login. cbn [login_email login_password]. rewrite Hfound.
    change (get newUser "password") with (VString (bcrypt_hash salt pw 10)).
    unfold bcrypt_compare, bcrypt_hash. by rewrite bcrypt_check_digest. }
  split; [reflexivity|].
  intros later Hlater. split; [|reflexivity].
  unfold me.
  by rewrite (authMiddleware_bearer_signed jws_decode_encode jws_compact
                env (_id newUser) now later) by done.
Qed.

End Scenario.

Lemma register_then_login_then_me_scenario :
  status (@register mark_bcrypt "salt" empty_world request_A).2 = 201
  ∧ ∃ token info,
      @login mark_bcrypt unary_jws env_k 5 world_A login_A
      = (world_A, res_status_json 200 (JLogin token info))
      ∧ info !! "id" = Some (VObjectId 0)
      ∧ ∀ later,
          (later < 5 + 3600)%nat →
          @me unary_jws env_k later world_A
            (with_authorization ("Bearer " +:+ token))
          = (world_A, res_status_json 200
                        (JClaims {| Claims.id := 0; Claims.iat := 5;
                                    Claims.exp := 5 + 3600 |}))
          ∧ @me unary_jws env_k later world_A {| headers := ∅ |}
            = (world_A, no_token).
Proof.
  apply (@register_then_login_then_me mark_bcrypt unary_jws
           mark_bcrypt_nonempty mark_bcrypt_check_digest
           unary_decode_encode unary_compact
           "salt" env_k 5 empty_world request_A "A" "a@x.com" "1" "pw12345");
    try discriminate; by vm_compute.
Defined.

Lemma login_token_passes_guard_witness :
  ∃ token,
    @login mark_bcrypt unary_jws env_k 5 world_A login_A
    = (world_A,
       res_status_json 200 (JLogin token (JSON_stringify (user_info user_A))))
    ∧ ∀ later request,
        (later < 5 + 3600)%nat →
        header request "Authorization" = Some ("Bearer " +:+ token) →
        ∃ claims,
          @authMiddleware unary_jws env_k later request = Next claims
          ∧ Claims.id claims = _id user_A.
Proof.
  apply (@login_token_passes_guard mark_bcrypt unary_jws
           unary_decode_encode unary_compact env_k 5 world_A login_A user_A);
    by vm_compute.
Defined.

Lemma login_failures_same_answer_witness :
  (@login mark_bcrypt unary_jws env_k 5 empty_world login_A).2
  = (@login mark_bcrypt unary_jws env_k 7 world_A
       {| login_email := "a@x.com"; login_password := Some "wrong" |}).2
  ∧ (@login mark_bcrypt unary_jws env_k 5 empty_world login_A).2
    = res_status_json 400 (JMessage "Invalid email or password").
Proof.
  apply (@login_failures_same_answer mark_bcrypt unary_jws env_k 5 7
           empty_world world_A login_A
           {| login_email := "a@x.com"; login_password := Some "wrong" |}
           user_A);
    by vm_compute.
Defined.

Lemma login_internal_failure_is_500_witness :
  @login mark_bcrypt unary_jws env_k 5 world_A_offline login_A
  = (world_A_offline, res_status_json 500 (JMessage "connection lost"))
  ∧ status (@login mark_bcrypt unary_jws env_k 5 world_A_offline login_A).2
    = 500.
Proof.
  apply (@login_internal_failure_is_500 mark_bcrypt unary_jws env_k 5
           world_A_offline login_A "connection lost").
  left. by vm_compute.
Defined.

(** C8 as stated fails: when the store is out of reach the lookup throws
    and the login is answered 500, not 400; so it is when the request has
    no password and the comparison throws. *)
Lemma login_internal_failure_counterexample :
  (User_findOne world_A_offline (login_email login_A) = Throw "connection lost"
   ∧ status (@login mark_bcrypt unary_jws env_k 5 world_A_offline login_A).2
     = 500
   ∧ status (@login mark_bcrypt unary_jws env_k 5 world_A_offline login_A).2
     ≠ 400)
  ∧ (@bcrypt_compare mark_bcrypt None (get user_A "password")
     = Throw "Illegal arguments: undefined, string"
     ∧ status (@login mark_bcrypt unary_jws env_k 5 world_A
                 {| login_email := "a@x.com"; login_password := None |}).2
       = 500).
Proof.
  split; [split; [reflexivity|split; [reflexivity|by vm_compute]]|].
  split; by vm_compute.
Qed.

(** C7 on the request of the scenario, sent without a picture: the
    name, email and phone of the answers are those of the request, but
    the record has no profilePicture and neither the answer of the
    registration nor that of a later login has one, where the claim
    expects the empty string. *)
Lemma register_without_picture_loses_profilePicture :
  file request_A = None
  ∧ users world_A = [user_A]
  ∧ get user_A "profilePicture" = VUndefined
  ∧ (∃ info,
       (@register mark_bcrypt "salt" empty_world request_A).2
       = res_status_json 201 (JRegistered "User registered successfully" info)
       ∧ info !! "name" = Some (VString "A")
       ∧ info !! "email" = Some (VString "a@x.com")
       ∧ info !! "phone" = Some (VString "1")
       ∧ info !! "profilePicture" = None
       ∧ info !! "profilePicture" ≠ Some (VString ""))
  ∧ (∃ token info,
       (@login mark_bcrypt unary_jws env_k 5 world_A login_A).2
       = res_status_json 200 (JLogin token info)
       ∧ info !! "name" = Some (VString "A")
       ∧ info !! "email" = Some (VString "a@x.com")
       ∧ info !! "phone" = Some (VString "1")
       ∧ info !! "profilePicture" = None
       ∧ info !! "profilePicture" ≠ Some (VString "")).
Proof.
  split; [reflexivity|]. split; [by vm_compute|]. split; [reflexivity|].
  split.
  - eexists. split; [by vm_compute|]. by vm_compute.
  - eexists _, _. split; [by vm_compute|]. by vm_compute.
Qed.

Lemma authMiddleware_authorizes_iff_witness :
  @authMiddleware unary_jws env_k 10 (with_authorization ("Bearer " +:+ token_A))
  = Next claims_A.
Proof.
  apply (proj1 (@authMiddleware_authorizes_iff unary_jws env_k 10
                  (with_authorization ("Bearer " +:+ token_A)))).
  exists ("Bearer " +:+ token_A), token_A, (@hs256 unary_jws "k" claims_A).
  split; [by vm_compute|]. split; [by vm_compute|]. split; [by vm_compute|].
  split; [by vm_compute|]. split; [reflexivity|]. simpl. lia.
Defined.

Lemma authMiddleware_ignores_scheme_witness :
  @authMiddleware unary_jws env_k 10 (with_authorization ("Token " +:+ token_A))
  = Next claims_A
  ∧ @authMiddleware unary_jws env_k 10 (with_authorization token_A)
    = Respond no_token.
Proof.
  split.
  - rewrite (proj1 (@authMiddleware_ignores_scheme unary_jws env_k 10
                      (with_authorization ("Token " +:+ token_A)))
               "Token" token_A "");
      by vm_compute || (left; reflexivity).
  - apply (proj2 (@authMiddleware_ignores_scheme unary_jws env_k 10
                    (with_authorization token_A)) token_A);
      by vm_compute.
Defined.

(** ** The rating route *)

Lemma rating_accepted (r : Q) :
  (1 <= r)%Q → (r <= 5)%Q → rating_rejected (Some r) = false.
Proof.
  intros H1 H5. unfold rating_rejected.
  rewrite (proj2 (Qle_bool_iff 1 r) H1), (proj2 (Qle_bool_iff r 5) H5).
  destruct (Qeq_bool r 0) eqn:H0; [|done].
  apply Qeq_bool_iff in H0. lra.
Qed.




(** If the average was the mean of [n > 0] ratings of sum [s], the new
    average is the mean of the [n + 1] ratings. *)
Lemma running_average_is_mean (a n s r : Q) :
  (0 < n)%Q → (a == s / n)%Q →
  ((a * n + r) / (n + 1) == (s + r) / (n + 1))%Q.
Proof.
  intros Hn Ha. rewrite Ha. field. split; lra.
Qed.

(** A rating that is missing, zero, below 1 or above 5 is answered 400
    and the store is as before. *)
Lemma rate_rejects (w : World) (id : nat) (newRating : option Q) :
  rating_rejected newRating = true →
  rate w id newRating
  = (w, res_status_json 400 (JMessage "Rating must be between 1 and 5")).
Proof. unfold rate. by intros ->. Qed.

(** * Further properties of the routes *)

(** ** Registration *)

(** The document of [register] passes validation exactly when its four
    paths are not empty and its email matches the pattern. *)
Lemma User_validate_register_input_Ok (oid : nat) (n e ph h pic : string) :
  User_validate (new_User oid (register_input n e ph h pic)) = Ok ()
  ↔ n ≠ "" ∧ e ≠ "" ∧ ph ≠ "" ∧ h ≠ "" ∧ test email_pattern e = true.
Proof.
  split.
  - unfold User_validate, check_required, check_match.
    change (get (new_User oid (register_input n e ph h pic)) "name") with (VString n).
    change (get (new_User oid (register_input n e ph h pic)) "email") with (VString e).
    change (get (new_User oid (register_input n e ph h pic)) "phone") with (VString ph).
    change (get (new_User oid (register_input n e ph h pic)) "password") with (VString h).
    cbv iota beta.
    destruct (String.eqb n "") eqn:Hn; [done|].
    destruct (String.eqb e "") eqn:He; [done|].
    destruct (String.eqb ph "") eqn:Hph;
      [by destruct (test email_pattern e)|].
    destruct (String.eqb h "") eqn:Hh;
      [by destruct (test email_pattern e)|].
    destruct (test email_pattern e) eqn:Ht; [|done].
    intros _. by apply String.eqb_neq in Hn, He, Hph, Hh.
  - intros (Hn & He & Hph & Hh & Ht).
    by rewrite User_validate_register_input, Ht.
Qed.

(** What a registration that is answered 201 was, and what it did. *)
Lemma register_201_inv `{Bcrypt} (salt : string) (w : World)
    (req : RegisterRequest) :
  status (register salt w req).2 = 201 →
  ∃ n e ph pw,
    name req = Some n ∧ email req = Some e ∧ phone req = Some ph
    ∧ password req = Some pw
    ∧ n ≠ "" ∧ e ≠ "" ∧ ph ≠ "" ∧ pw ≠ ""
    ∧ test email_pattern e = true
    ∧ User_findOne w e = Ok None
    ∧ (register salt w req).1
      = set_users (take_oid w).2
          (users w
           ++ [new_User (next_oid w)
                 (register_input n e ph (bcrypt_hash salt pw 10)
                    (match file req with Some path => path | None => "" end))])%list.
Proof.
  unfold register.
  destruct (falsy (name req) || falsy (email req) || falsy (phone req)
            || falsy (password req)) eqn:Hfalsy; [intros [=]|].
  destruct (name req) as [n|]; [|intros [=]].
  destruct (email req) as [e|]; [|intros [=]].
  destruct (phone req) as [ph|]; [|intros [=]].
  destruct (password req) as [pw|]; [|intros [=]].
  apply orb_false_elim in Hfalsy as [Hfalsy Hpw].
  apply orb_false_elim in Hfalsy as [Hfalsy Hph].
  apply orb_false_elim in Hfalsy as [Hn He].
  apply falsy_Some in Hn, He, Hph, Hpw.
  destruct (User_findOne w e) as [[?|]|] eqn:Hfind; [intros [=]| |intros [=]].
  unfold take_oid. cbv zeta iota beta.
  fold (register_input n e ph (bcrypt_hash salt pw 10)
          (match file req with Some path => path | None => "" end)).
  set (newUser := new_User _ _).
  unfold User_save.
  destruct (User_validate newUser) as [[]|] eqn:Hval; [|intros [=]].
  apply User_validate_register_input_Ok in Hval as (_ & _ & _ & _ & Ht).
  apply User_findOne_Ok in Hfind as [Hdb Hnone].
  cbn [db_failure]. rewrite Hdb.
  change (get newUser "email") with (VString e).
  cbn [users]. rewrite (find_None_existsb _ _ Hnone).
  intros _. exists n, e, ph, pw. repeat (split; [done|]).
  split; [|done]. unfold User_findOne. by rewrite Hdb, Hnone.
Qed.

Section RegisterMore.
Context `{Bcrypt}.

Hypothesis bcrypt_digest_nonempty :
  ∀ s rounds salt, bcrypt_digest s rounds salt ≠ "".

(** X1. A registration is answered 201 exactly when its four fields are
    present and not empty, its email matches the pattern of the schema,
    and the lookup of the email answers that no user has it. *)
Theorem register_answers_201_iff (salt : string) (w : World)
    (req : RegisterRequest) :
  status (register salt w req).2 = 201
  ↔ ∃ n e ph pw,
      name req = Some n ∧ email req = Some e ∧ phone req = Some ph
      ∧ password req = Some pw
      ∧ n ≠ "" ∧ e ≠ "" ∧ ph ≠ "" ∧ pw ≠ ""
      ∧ test email_pattern e = true
      ∧ User_findOne w e = Ok None.
Proof.
  split.
  - intros (n & e & ph & pw & ? & ? & ? & ? & ? & ? & ? & ? & ? & ? & _)%register_201_inv.
    by exists n, e, ph, pw.
  - intros (n & e & ph & pw & Hn & He & Hph & Hpw & Hn0 & He0 & Hph0 & Hpw0
            & Hmatch & Hfind).
    pose proof (register_fresh salt w req n e ph pw Hn He Hph Hpw Hn0 He0 Hph0
                  Hpw0 (bcrypt_digest_nonempty _ _ _) Hfind) as Hreg.
    cbv zeta in Hreg. rewrite Hmatch in Hreg. by rewrite Hreg.
Qed.

End RegisterMore.

Lemma register_answers_201_iff_witness :
  status (@register mark_bcrypt "salt" empty_world request_A).2 = 201.
Proof.
  apply (proj2 (@register_answers_201_iff mark_bcrypt mark_bcrypt_nonempty
                  "salt" empty_world request_A)).
  exists "A", "a@x.com", "1", "pw12345".
  repeat (split; [first [reflexivity | discriminate]|]). reflexivity.
Defined.




(** No stored user has an email that the lookup does not find. *)
Lemma count_email_None (e : string) (w : World) :
  find (has_email e) (users w) = None → count_email e w = 0.
Proof.
  unfold count_email. induction (users w) as [|u us IH]; [done|].
  simpl. destruct (has_email e u) eqn:Hu; [done|]. intros Hnone.
  rewrite filter_cons_False; [by apply IH|]. by rewrite Hu.
Qed.

Lemma count_email_snoc (e : string) (w : World) (us : list Document)
    (u : Document) :
  count_email e (set_users w (us ++ [u])%list)
  = (count_email e (set_users w us) + if has_email e u then 1 else 0)%nat.
Proof.
  unfold count_email. cbn [users set_users].
  rewrite filter_app, length_app. f_equal.
  destruct (has_email e u) eqn:Hu.
  - by rewrite filter_cons_True.
  - rewrite filter_cons_False; [done|]. by rewrite Hu.
Qed.

(** A registration with an email that the lookup finds is answered 400. *)
Lemma register_known_email `{Bcrypt} (salt : string) (w : World)
    (req : RegisterRequest) (n e ph pw : string) (existingUser : Document) :
  name req = Some n → email req = Some e → phone req = Some ph →
  password req = Some pw →
  n ≠ "" → e ≠ "" → ph ≠ "" → pw ≠ "" →
  User_findOne w e = Ok (Some existingUser) →
  register salt w req
  = (w, res_status_json 400 (JMessage "User already exists")).
Proof.
  intros Hn He Hph Hpw Hn0 He0 Hph0 Hpw0 Hfind.
  unfold register. rewrite Hn, He, Hph, Hpw.
  rewrite (proj2 (falsy_Some n) Hn0), (proj2 (falsy_Some e) He0),
    (proj2 (falsy_Some ph) Hph0), (proj2 (falsy_Some pw) Hpw0).
  simpl orb. cbv iota. by rewrite Hfind.
Qed.

(** X3. Registering twice. After a registration that was answered 201, a
    registration with the same email and any other fields (present and
    not empty) is answered 400, "User already exists", and leaves the
    store as the first one left it, with exactly one record of that
    email. *)
Theorem register_twice_conflict `{Bcrypt} (salt salt' : string) (w : World)
    (req req' : RegisterRequest) (e n' ph' pw' : string) :
  status (register salt w req).2 = 201 →
  email req = Some e →
  name req' = Some n' → email req' = Some e → phone req' = Some ph' →
  password req' = Some pw' →
  n' ≠ "" → ph' ≠ "" → pw' ≠ "" →
  register salt' (register salt w req).1 req'
  = ((register salt w req).1,
     res_status_json 400 (JMessage "User already exists"))
  ∧ count_email e (register salt w req).1 = 1.
Proof.
  intros H201 He Hn' He' Hph' Hpw' Hn0 Hph0 Hpw0.
  apply register_201_inv in H201
    as (n & e0 & ph & pw & _ & He0 & _ & _ & _ & Hne & _ & _ & _ & Hfind & ->).
  rewrite He in He0. injection He0 as <-.
  apply User_findOne_Ok in Hfind as [Hdb Hnone].
  set (newUser := new_User _ _).
  assert (has_email e newUser = true) as Hnew.
  { unfold has_email. by apply bool_decide_eq_true. }
  split.
  - apply (register_known_email salt' _ req' n' e ph' pw' newUser
             Hn' He' Hph' Hpw' Hn0 Hne Hph0 Hpw0).
    unfold User_findOne. cbn [db_failure users set_users take_oid snd].
    rewrite Hdb. f_equal. by apply find_app_None.
  - rewrite count_email_snoc, Hnew.
    change (count_email e (set_users (take_oid w).2 (users w)))
      with (count_email e w).
    by rewrite (count_email_None e w Hnone).
Qed.

Lemma register_twice_conflict_witness :
  @register mark_bcrypt "salt2"
    (@register mark_bcrypt "salt" empty_world request_A).1 request_A_picture
  = ((@register mark_bcrypt "salt" empty_world request_A).1,
     res_status_json 400 (JMessage "User already exists"))
  ∧ count_email "a@x.com" (@register mark_bcrypt "salt" empty_world request_A).1
    = 1.
Proof.
  apply (@register_twice_conflict mark_bcrypt "salt" "salt2" empty_world
           request_A request_A_picture "a@x.com" "A" "1" "pw12345");
    try discriminate; by vm_compute.
Defined.

(** ** The schema of the users *)

Lemma check_required_nil (doc : Document) (path : string) :
  check_required doc path = [] ↔ ∃ s, get doc path = VString s ∧ s ≠ "".
Proof.
  unfold check_required. destruct (get doc path) as [|s|oid].
  - split; [done|]. by intros (s & ? & _).
  - destruct (String.eqb s "") eqn:Hs.
    + apply String.eqb_eq in Hs as ->. split; [done|]. by intros (s & [= <-] & ?).
    + apply String.eqb_neq in Hs. split; [|done]. intros _. by exists s.
  - split; [done|]. by intros (s & ? & _).
Qed.

Lemma check_match_nil (doc : Document) (e : string) :
  get doc "email" = VString e → e ≠ "" →
  check_match doc = [] ↔ test email_pattern e = true.
Proof.
  intros He Hne. unfold check_match. rewrite He.
  apply String.eqb_neq in Hne. rewrite Hne. simpl orb.
  by destruct (test email_pattern e).
Qed.

(** X4. A user document passes the validation of the schema exactly when
    its name, email, phone and password are strings that are not empty
    and its email has, somewhere in it, a non-empty stretch of one line,
    "@", another such stretch, "." and another such stretch. *)
Theorem User_validate_Ok_iff (doc : Document) :
  User_validate doc = Ok ()
  ↔ ∃ n e ph h,
      get doc "name" = VString n ∧ get doc "email" = VString e
      ∧ get doc "phone" = VString ph ∧ get doc "password" = VString h
      ∧ n ≠ "" ∧ e ≠ "" ∧ ph ≠ "" ∧ h ≠ ""
      ∧ ∃ pre x y z post,
          e = pre +:+ (x +:+ "@" +:+ y +:+ "." +:+ z) +:+ post
          ∧ (x ≠ "" ∧ one_line x = true)
          ∧ (y ≠ "" ∧ one_line y = true)
          ∧ (z ≠ "" ∧ one_line z = true).
Proof.
  assert (User_validate doc = Ok ()
          ↔ check_required doc "name" = [] ∧ check_required doc "email" = []
            ∧ check_match doc = [] ∧ check_required doc "phone" = []
            ∧ check_required doc "password" = []) as ->.
  { unfold User_validate.
    destruct (check_required doc "name"), (check_required doc "email"),
      (check_match doc), (check_required doc "phone"),
      (check_required doc "password"); simpl; split; try done;
      by intros (? & ? & ? & ? & ?). }
  rewrite !check_required_nil. split.
  - intros ((n & Hn & Hn0) & (e & He & He0) & Hm & (ph & Hph & Hph0)
            & (h & Hh & Hh0)).
    exists n, e, ph, h. repeat (split; [done|]).
    apply test_email_pattern. by apply (check_match_nil doc e He He0).
  - intros (n & e & ph & h & Hn & He & Hph & Hh & Hn0 & He0 & Hph0 & Hh0 & Hdec).
    split; [by exists n|]. split; [by exists e|].
    split; [|split; [by exists ph|by exists h]].
    apply (check_match_nil doc e He He0). by apply test_email_pattern.
Qed.

(** ** Answers without the password *)

Lemma user_info_dom_stored (doc : Document) :
  dom (JSON_stringify (user_info doc))
  ⊆ ({[ "id"; "name"; "email"; "phone" ]} : gset string).
Proof.
  intros k Hk. pose proof (user_info_dom doc k Hk) as Hk5.
  apply elem_of_union in Hk5 as [Hk4| ->%elem_of_singleton]; [done|].
  apply elem_of_dom in Hk as [v Hv].
  by rewrite user_info_no_profilePicture in Hv.
Qed.

(** X5. The user of a body of the register or of the login route has no
    password and no key but id, name, email and phone; a login leaves
    the store as it is. *)
Theorem auth_answers_without_password `{Bcrypt} `{Jws}
    (salt : string) (env : Env) (now : nat) (w : World)
    (reg : RegisterRequest) (req : LoginRequest) :
  (∀ info,
     body_user (body (register salt w reg).2) = Some info →
     info !! "password" = None
     ∧ dom info ⊆ ({[ "id"; "name"; "email"; "phone" ]} : gset string))
  ∧ (∀ info,
       body_user (body (login env now w req).2) = Some info →
       info !! "password" = None
       ∧ dom info ⊆ ({[ "id"; "name"; "email"; "phone" ]} : gset string))
  ∧ (login env now w req).1 = w.
Proof.
  split; [|split].
  - unfold register.
    destruct (falsy (name reg) || falsy (email reg) || falsy (phone reg)
              || falsy (password reg)); [intros ? [=]|].
    destruct (name reg) as [n|]; [|intros ? [=]].
    destruct (email reg) as [e|]; [|intros ? [=]].
    destruct (phone reg) as [ph|]; [|intros ? [=]].
    destruct (password reg) as [pw|]; [|intros ? [=]].
    destruct (User_findOne w e) as [[?|]|]; [intros ? [=]| |intros ? [=]].
    cbv zeta. unfold take_oid.
    destruct (User_save _ _) as [w2 [[]|]]; [|intros ? [=]].
    cbn [snd body res_status_json body_user].
    intros info Heq%(inj Some). subst info.
    split; [apply user_info_no_password|apply user_info_dom_stored].
  - unfold login.
    destruct (User_findOne w _) as [[user|]|]; [|intros ? [=]..].
    destruct (bcrypt_compare _ _) as [[]|]; [|intros ? [=]..].
    cbn [snd body res_status_json body_user].
    intros info Heq%(inj Some). subst info.
    split; [apply user_info_no_password|apply user_info_dom_stored].
  - unfold login.
    destruct (User_findOne w _) as [[user|]|]; [|done..].
    by destruct (bcrypt_compare _ _) as [[]|].
Qed.

(** ** More on the guard *)

(** X6. A header whose second segment is empty (nothing, or a further space,
    follows the first space) is answered 401 "no token", whatever comes
    after. *)
Theorem authMiddleware_empty_second_segment `{Jws} (env : Env) (now : nat)
    (req : Request) (scheme rest : string) :
  free_of " " scheme = true →
  rest = "" ∨ (∃ t, rest = String " " t) →
  header req "Authorization" = Some (scheme +:+ " " +:+ rest) →
  authMiddleware env now req = Respond no_token.
Proof.
  intros Hs Hrest Hh. rewrite authMiddleware_token_segment.
  assert (token_segment req = None) as ->; [|done].
  apply token_segment_None. right. eexists. split; [exact Hh|]. right.
  change (scheme +:+ " " +:+ rest) with (scheme +:+ String " " rest).
  rewrite split_first by done.
  destruct Hrest as [->|[t ->]]; [done|].
  change (String " " t) with ("" +:+ String " " t). by rewrite split_first.
Qed.

Lemma authMiddleware_empty_second_segment_witness :
  @authMiddleware unary_jws env_k 10
    (with_authorization ("Bearer" +:+ " " +:+ String " " token_A))
  = Respond no_token.
Proof.
  apply (@authMiddleware_empty_second_segment unary_jws env_k 10
           (with_authorization ("Bearer" +:+ " " +:+ String " " token_A))
           "Bearer" (String " " token_A));
    [reflexivity | right; by eexists | by vm_compute].
Defined.

Section Lifetime.
Context `{Bcrypt} `{Jws}.

Hypothesis jws_decode_encode :
  ∀ payload signature,
    jws_decode (jws_encode payload signature) = Some (payload, signature).
Hypothesis jws_compact :
  ∀ secret payload,
    free_of " " (jws_encode payload (hs256 secret payload)) = true
    ∧ jws_encode payload (hs256 secret payload) ≠ "".

(** X7. The token of a login is good for one hour and no longer: sent as
    "Bearer token" under the same secret, it passes the guard at every
    time before the hour is over and is answered 401 "not valid" at
    every time from then on. *)
Theorem login_token_lifetime (env : Env) (now : nat) (w : World)
    (req : LoginRequest) (user : Document) :
  User_findOne w (login_email req) = Ok (Some user) →
  bcrypt_compare (login_password req) (get user "password") = Ok true →
  ∃ token info,
    (login env now w req).2 = res_status_json 200 (JLogin token info)
    ∧ ∀ later request,
        header request "Authorization" = Some ("Bearer " +:+ token) →
        ((later < now + 3600)%nat →
         authMiddleware env later request
         = Next {| Claims.id := _id user; Claims.iat := now;
                   Claims.exp := now + 3600 |})
        ∧ ((now + 3600 ≤ later)%nat →
           authMiddleware env later request = Respond invalid_token).
Proof.
  intros Hfind Hcmp.
  exists (jwt_sign (_id user) (JWT_SECRET env) now), (JSON_stringify (user_info user)).
  split.
  { unfold login. by rewrite Hfind, Hcmp. }
  intros later request Hh. split.
  - intros Hlater.
    by apply (authMiddleware_bearer_signed jws_decode_encode jws_compact).
  - intros Hlater.
    destruct (jws_compact (JWT_SECRET env)
                {| Claims.id := _id user; Claims.iat := now;
                   Claims.exp := now + 3600 |}) as [Hfree Hne].
    rewrite (authMiddleware_second_segment env later request
               "Bearer" (jwt_sign (_id user) (JWT_SECRET env) now) "");
      [| done | exact Hfree | exact Hne | by left
       | by rewrite append_empty_r].
    destruct (jwt_verify_Throw (jwt_sign (_id user) (JWT_SECRET env) now)
                (JWT_SECRET env) later) as [e ->]; [|done].
    right. eexists _, _. split; [apply jws_decode_encode|]. by right.
Qed.

End Lifetime.

Lemma login_token_lifetime_witness :
  ∃ token info,
    (@login mark_bcrypt unary_jws env_k 5 world_A login_A).2
    = res_status_json 200 (JLogin token info)
    ∧ ∀ later request,
        header request "Authorization" = Some ("Bearer " +:+ token) →
        ((later < 5 + 3600)%nat →
         @authMiddleware unary_jws env_k later request
         = Next {| Claims.id := _id user_A; Claims.iat := 5;
                   Claims.exp := 5 + 3600 |})
        ∧ ((5 + 3600 ≤ later)%nat →
           @authMiddleware unary_jws env_k later request = Respond invalid_token).
Proof.
  apply (@login_token_lifetime mark_bcrypt unary_jws
           unary_decode_encode unary_compact env_k 5 world_A login_A user_A);
    by vm_compute.
Defined.

(** ** The product routes *)

Lemma falsy_number_Some (q : Q) : falsy_number (Some q) = false ↔ ¬ (q == 0)%Q.
Proof.
  simpl. destruct (Qeq_bool q 0) eqn:Hq.
  - apply Qeq_bool_iff in Hq. split; [done|]. by intros [].
  - split; [|done]. intros _ Hq0. apply Qeq_bool_iff in Hq0. congruence.
Qed.

(** A body is complete when its name, price, category and description
    are there, no string is empty and the price is not zero. *)
Lemma body_complete (b : ProductBody) :
  body_incomplete b = false
  ↔ ∃ n pr c d,
      body_name b = Some n ∧ body_price b = Some pr
      ∧ body_category b = Some c ∧ body_description b = Some d
      ∧ n ≠ "" ∧ ¬ (pr == 0)%Q ∧ c ≠ "" ∧ d ≠ "".
Proof.
  unfold body_incomplete. rewrite !orb_false_iff. split.
  - intros [[[Hn Hp] Hc] Hd].
    destruct (body_name b) as [n|]; [|done].
    destruct (body_price b) as [pr|]; [|done].
    destruct (body_category b) as [c|]; [|done].
    destruct (body_description b) as [d|]; [|done].
    exists n, pr, c, d.
    apply falsy_Some in Hn, Hc, Hd. apply falsy_number_Some in Hp. done.
  - intros (n & pr & c & d & -> & -> & -> & -> & Hn & Hp & Hc & Hd).
    apply falsy_Some in Hn, Hc, Hd. apply falsy_number_Some in Hp. done.
Qed.

Lemma Product_validate_new (oid : nat) (n : string) (pr : Q) (c d : string)
    (b : ProductBody) :
  n ≠ "" → c ≠ "" → Product_validate (new_Product oid n pr c d b) = Ok ().
Proof.
  intros Hn Hc. apply String.eqb_neq in Hn, Hc.
  unfold Product_validate. cbn [product_name category new_Product].
  by rewrite Hn, Hc.
Qed.

Lemma existsb_has_id_issued (k : nat) (ps : list Product) :
  Forall (λ p, (product_id p < k)%nat) ps → existsb (has_id k) ps = false.
Proof.
  induction 1 as [|p ps Hp _ IH]; [done|]. simpl. rewrite IH.
  unfold has_id.
  assert (Nat.eqb (product_id p) k = false) as -> by (apply Nat.eqb_neq; lia).
  done.
Qed.

Lemma find_has_id_None (k : nat) (ps : list Product) :
  existsb (has_id k) ps = false → find (has_id k) ps = None.
Proof.
  induction ps as [|p ps IH]; [done|]. simpl.
  destruct (has_id k p); [done|]. exact IH.
Qed.

Lemma find_has_id_snoc (k : nat) (ps : list Product) (p : Product) :
  find (has_id k) (ps ++ [p])%list
  = match find (has_id k) ps with
    | Some q => Some q
    | None => if has_id k p then Some p else None
    end.
Proof.
  induction ps as [|q ps IH]; simpl; [done|].
  destruct (has_id k q); [done|]. exact IH.
Qed.

(** What the creation of a product does with a complete body. *)
Lemma post_product_complete (w : World) (b : ProductBody) (n : string)
    (pr : Q) (c d : string) :
  body_name b = Some n → body_price b = Some pr →
  body_category b = Some c → body_description b = Some d →
  n ≠ "" → ¬ (pr == 0)%Q → c ≠ "" → d ≠ "" →
  let newProduct := new_Product (next_oid w) n pr c d b in
  post_product w b
  = match db_failure w with
    | Some e =>
        ((take_oid w).2, res_status_json 400 (JError "Failed to insert product" e))
    | None =>
        if existsb (has_id (next_oid w)) (products w)
        then ((take_oid w).2,
              res_status_json 400
                (JError "Failed to insert product" "E11000 duplicate key error"))
        else (set_products (take_oid w).2 (products w ++ [newProduct])%list,
              res_status_json 201 (JProduct newProduct))
    end.
Proof.
  intros Hn Hp Hc Hd Hn0 Hp0 Hc0 Hd0 newProduct.
  assert (body_incomplete b = false) as Hb.
  { apply body_complete. by exists n, pr, c, d. }
  unfold post_product. rewrite Hb, Hn, Hp, Hc, Hd.
  unfold take_oid. cbv zeta iota beta. fold newProduct.
  unfold Product_insert. unfold newProduct at 1.
  rewrite Product_validate_new by done.
  cbn [db_failure]. destruct (db_failure w); [done|].
  cbn [products]. change (product_id newProduct) with (next_oid w).
  by destruct (existsb (has_id (next_oid w)) (products w)).
Qed.

(** X9. A product is created (201) exactly when the body is complete and the
    store answers, provided the ids in the catalogue were issued by the
    counter. The catalogue then gains, at its end, a product with a new
    id, the paths of the body, the defaults of the schema for the flags
    that the body leaves out, and no ratings. Otherwise the catalogue is
    as before. *)
Theorem post_product_created_iff (w : World) (b : ProductBody) :
  Forall (λ p, (product_id p < next_oid w)%nat) (products w) →
  (status (post_product w b).2 = 201
   ↔ body_incomplete b = false ∧ db_failure w = None)
  ∧ (status (post_product w b).2 = 201 →
     ∃ n pr c d,
       body_name b = Some n ∧ body_price b = Some pr
       ∧ body_category b = Some c ∧ body_description b = Some d
       ∧ (post_product w b).2
         = res_status_json 201 (JProduct (new_Product (next_oid w) n pr c d b))
       ∧ products (post_product w b).1
         = (products w ++ [new_Product (next_oid w) n pr c d b])%list
       ∧ rating (new_Product (next_oid w) n pr c d b)
         = {| averageRating := 0; numberOfRatings := 0 |}
       ∧ isFeatured (new_Product (next_oid w) n pr c d b)
         = default false (body_isFeatured b)
       ∧ isBestDeal (new_Product (next_oid w) n pr c d b)
         = default false (body_isBestDeal b))
  ∧ (status (post_product w b).2 ≠ 201 →
     products (post_product w b).1 = products w).
Proof.
  intros Hissued. apply existsb_has_id_issued in Hissued.
  destruct (body_incomplete b) eqn:Hb.
  { unfold post_product. rewrite Hb. cbn. split; [|done].
    split; [done|]. by intros [? _]. }
  apply body_complete in Hb as Hfields.
  destruct Hfields as (n & pr & c & d & Hn & Hp & Hc & Hd & Hn0 & Hp0 & Hc0 & Hd0).
  rewrite (post_product_complete w b n pr c d) by done. cbv zeta.
  rewrite Hissued.
  destruct (db_failure w) as [e|]; cbn.
  - split; [|done]. split; [done|]. by intros [_ ?].
  - split; [done|]. split; [|done]. intros _. by exists n, pr, c, d.
Qed.

Lemma post_product_created_iff_witness :
  status (post_product world_P body_B).2 = 201.
Proof.
  apply (proj1 (post_product_created_iff world_P body_B
                  ltac:(repeat constructor; simpl; lia))).
  split; reflexivity.
Defined.

Lemma Product_findById_Ok (w : World) (id : nat) (r : option Product) :
  Product_findById w id = Ok r
  ↔ db_failure w = None ∧ find (has_id id) (products w) = r.
Proof.
  unfold Product_findById. fold (has_id id).
  destruct (db_failure w); split; try done.
  - by intros [? ?].
  - by intros [= <-].
  - by intros [_ <-].
Qed.

(** A product that is found has the id. *)
Lemma find_has_id_Some (id : nat) (ps : list Product) (p : Product) :
  find (has_id id) ps = Some p → product_id p = id ∧ In p ps.
Proof.
  intros [Hin Hb]%find_some. split; [|done]. by apply Nat.eqb_eq.
Qed.

Lemma find_update_first (id id' : nat) (f : Product → Product)
    (ps : list Product) :
  (∀ p, product_id (f p) = product_id p) →
  find (has_id id') (update_first id f ps)
  = if Nat.eqb id' id then f <$> find (has_id id) ps
    else find (has_id id') ps.
Proof.
  intros Hf. induction ps as [|p ps IH]; simpl; [by destruct (Nat.eqb id' id)|].
  destruct (Nat.eqb id' id) eqn:Hid.
  - apply Nat.eqb_eq in Hid as ->.
    destruct (has_id id p) eqn:Hp; simpl.
    + assert (has_id id (f p) = true) as ->; [|done].
      unfold has_id in *. by rewrite Hf.
    + by rewrite Hp, IH.
  - apply Nat.eqb_neq in Hid.
    destruct (has_id id p) eqn:Hp; simpl.
    + unfold has_id in Hp. apply Nat.eqb_eq in Hp.
      assert (has_id id' (f p) = false) as ->.
      { unfold has_id. rewrite Hf. apply Nat.eqb_neq. lia. }
      assert (has_id id' p = false) as ->; [|done].
      unfold has_id. apply Nat.eqb_neq. lia.
    + by rewrite IH.
Qed.

Lemma update_first_idempotent (id : nat) (f : Product → Product)
    (ps : list Product) :
  (∀ p, product_id (f p) = product_id p) → (∀ p, f (f p) = f p) →
  update_first id f (update_first id f ps) = update_first id f ps.
Proof.
  intros Hid Hf. induction ps as [|p ps IH]; simpl; [done|].
  destruct (has_id id p) eqn:Hp; simpl.
  - unfold has_id in *. by rewrite Hid, Hp, Hf.
  - by rewrite Hp, IH.
Qed.

Lemma length_update_first (id : nat) (f : Product → Product)
    (ps : list Product) :
  length (update_first id f ps) = length ps.
Proof.
  induction ps as [|p ps IH]; simpl; [done|].
  destruct (has_id id p); simpl; by rewrite ?IH.
Qed.

Lemma find_delete_first_other (id id' : nat) (ps : list Product) :
  id' ≠ id →
  find (has_id id') (delete_first id ps) = find (has_id id') ps.
Proof.
  intros Hne. induction ps as [|p ps IH]; simpl; [done|].
  destruct (has_id id p) eqn:Hp; simpl.
  - unfold has_id in *. apply Nat.eqb_eq in Hp.
    assert (Nat.eqb (product_id p) id' = false) as ->; [|done].
    apply Nat.eqb_neq. lia.
  - by rewrite IH.
Qed.

Lemma find_delete_first_same (id : nat) (ps : list Product) :
  NoDup (map product_id ps) →
  find (has_id id) (delete_first id ps) = None.
Proof.
  induction ps as [|p ps IH]; simpl; [done|].
  intros [Hnotin Hnodup]%NoDup_cons.
  destruct (has_id id p) eqn:Hp; simpl.
  - unfold has_id in Hp. apply Nat.eqb_eq in Hp. subst id.
    destruct (find (has_id (product_id p)) ps) as [q|] eqn:Hq; [|done].
    apply find_has_id_Some in Hq as [Hid Hin]. destruct Hnotin.
    rewrite <- Hid. apply list_elem_of_In. by apply in_map.
  - rewrite Hp. by apply IH.
Qed.

Lemma length_delete_first (id : nat) (ps : list Product) (p : Product) :
  find (has_id id) ps = Some p →
  S (length (delete_first id ps)) = length ps.
Proof.
  induction ps as [|q ps IH]; simpl; [done|].
  destruct (has_id id q); simpl; [done|]. intros Hf. by rewrite IH.
Qed.

Lemma set_paths_idempotent (n : string) (pr : Q) (c d : string)
    (b : ProductBody) (p : Product) :
  set_paths n pr c d b (set_paths n pr c d b p) = set_paths n pr c d b p.
Proof.
  unfold set_paths. cbn.
  by destruct (body_imgUrl b), (body_hotel b), (body_isFeatured b),
    (body_isBestDeal b).
Qed.

(** X10. Create, then read. After a product is created (201), the route that
    reads a product by id answers 200 with that product for the new id,
    and answers for every other id what it answered before. *)
Theorem post_product_then_get (w : World) (b : ProductBody) :
  Forall (λ p, (product_id p < next_oid w)%nat) (products w) →
  status (post_product w b).2 = 201 →
  ∃ p,
    (post_product w b).2 = res_status_json 201 (JProduct p)
    ∧ product_id p = next_oid w
    ∧ get_product (post_product w b).1 (product_id p)
      = ((post_product w b).1, res_status_json 200 (JProduct p))
    ∧ ∀ id, id ≠ product_id p →
        (get_product (post_product w b).1 id).2 = (get_product w id).2.
Proof.
  intros Hissued. apply existsb_has_id_issued in Hissued.
  destruct (body_incomplete b) eqn:Hb.
  { unfold post_product. rewrite Hb. intros [=]. }
  apply body_complete in Hb
    as (n & pr & c & d & Hn & Hp & Hc & Hd & Hn0 & Hp0 & Hc0 & Hd0).
  rewrite (post_product_complete w b n pr c d) by done. cbv zeta.
  rewrite Hissued. destruct (db_failure w) as [e|] eqn:Hdb; [intros [=]|].
  intros _. set (p := new_Product (next_oid w) n pr c d b).
  exists p. cbn [fst snd]. split; [done|]. split; [done|].
  assert (∀ id,
            Product_findById (set_products (take_oid w).2 (products w ++ [p])%list) id
            = Ok (if Nat.eqb id (next_oid w) then Some p
                  else find (has_id id) (products w))) as Hfind.
  { intros id. apply Product_findById_Ok. split; [done|].
    cbn [products set_products]. rewrite find_has_id_snoc.
    unfold has_id at 2. cbn [product_id p new_Product].
    rewrite (Nat.eqb_sym (next_oid w) id).
    destruct (Nat.eqb id (next_oid w)) eqn:Hid.
    - apply Nat.eqb_eq in Hid as ->. by rewrite (find_has_id_None _ _ Hissued).
    - by destruct (find (has_id id) (products w)). }
  split.
  - unfold get_product. rewrite Hfind. by rewrite Nat.eqb_refl.
  - intros id Hid. unfold get_product at 1. rewrite Hfind.
    apply Nat.eqb_neq in Hid. cbn [product_id p new_Product] in Hid.
    rewrite Hid. unfold get_product, Product_findById. rewrite Hdb.
    fold (has_id id). by destruct (find (has_id id) (products w)).
Qed.

Lemma post_product_then_get_witness :
  ∃ p,
    (post_product world_P body_B).2 = res_status_json 201 (JProduct p)
    ∧ product_id p = next_oid world_P
    ∧ get_product (post_product world_P body_B).1 (product_id p)
      = ((post_product world_P body_B).1, res_status_json 200 (JProduct p))
    ∧ ∀ id, id ≠ product_id p →
        (get_product (post_product world_P body_B).1 id).2
        = (get_product world_P id).2.
Proof.
  apply (post_product_then_get world_P body_B).
  - repeat constructor.
  - reflexivity.
Defined.



(** What an update does to a product that is found. *)
Lemma put_product_complete (w : World) (id : nat) (b : ProductBody)
    (n : string) (pr : Q) (c d : string) (p : Product) :
  body_name b = Some n → body_price b = Some pr →
  body_category b = Some c → body_description b = Some d →
  n ≠ "" → ¬ (pr == 0)%Q → c ≠ "" → d ≠ "" →
  db_failure w = None → find (has_id id) (products w) = Some p →
  put_product w id b
  = (set_products w (update_first id (set_paths n pr c d b) (products w)),
     res_status_json 200 (JProduct (set_paths n pr c d b p))).
Proof.
  intros Hn Hp Hc Hd Hn0 Hp0 Hc0 Hd0 Hdb Hfind.
  assert (body_incomplete b = false) as Hb.
  { apply body_complete. by exists n, pr, c, d. }
  unfold put_product. rewrite Hb, Hn, Hp, Hc, Hd.
  unfold Product_findByIdAndUpdate. by rewrite Hdb, Hfind.
Qed.

(** X12. Update. For a complete body and an id that a product has, the route
    answers 200 with the product after the update: its id and its rating
    are kept, the four required paths are those of the body, and a path
    that the body leaves out is kept. Reading the id afterwards gives
    this product, reading another id gives what it gave before, the
    catalogue has as many products as before, and the same update once
    more changes nothing and gets the same answer. *)
Theorem put_product_updates (w : World) (id : nat) (b : ProductBody)
    (p : Product) :
  body_incomplete b = false →
  Product_findById w id = Ok (Some p) →
  ∃ p',
    (put_product w id b).2 = res_status_json 200 (JProduct p')
    ∧ product_id p' = id ∧ rating p' = rating p
    ∧ Some (product_name p') = body_name b
    ∧ Some (price p') = body_price b
    ∧ Some (category p') = body_category b
    ∧ description p' = body_description b
    ∧ (body_hotel b = None → hotel p' = hotel p)
    ∧ (body_imgUrl b = None → imgUrl p' = imgUrl p)
    ∧ get_product (put_product w id b).1 id
      = ((put_product w id b).1, res_status_json 200 (JProduct p'))
    ∧ (∀ id', id' ≠ id →
         (get_product (put_product w id b).1 id').2 = (get_product w id').2)
    ∧ length (products (put_product w id b).1) = length (products w)
    ∧ put_product (put_product w id b).1 id b
      = ((put_product w id b).1, res_status_json 200 (JProduct p')).
Proof.
  intros (n & pr & c & d & Hn & Hp & Hc & Hd & Hn0 & Hp0 & Hc0 & Hd0)%body_complete
    [Hdb Hfind]%Product_findById_Ok.
  rewrite (put_product_complete w id b n pr c d p) by done.
  set (f := set_paths n pr c d b).
  assert (∀ q, product_id (f q) = product_id q) as Hid by done.
  pose proof (find_has_id_Some _ _ _ Hfind) as [Hpid _].
  exists (f p). cbn [fst snd].
  split; [done|]. split; [by rewrite Hid|]. split; [done|].
  split; [done|]. split; [done|]. split; [done|]. split; [done|].
  split; [by intros Hh; cbn; rewrite Hh|].
  split; [by intros Hi; cbn; rewrite Hi|].
  assert (∀ id',
            find (has_id id') (update_first id f (products w))
            = if Nat.eqb id' id then Some (f p)
              else find (has_id id') (products w)) as Hlook.
  { intros id'. rewrite (find_update_first id id' f _ Hid). by rewrite Hfind. }
  split; [|split; [|split]].
  - unfold get_product, Product_findById. cbn [db_failure set_products products].
    rewrite Hdb. fold (has_id id). by rewrite Hlook, Nat.eqb_refl.
  - intros id' Hne. apply Nat.eqb_neq in Hne.
    unfold get_product, Product_findById. cbn [db_failure set_products products].
    rewrite Hdb. fold (has_id id'). rewrite Hlook, Hne.
    by destruct (find (has_id id') (products w)).
  - cbn [products set_products]. apply length_update_first.
  - rewrite (put_product_complete _ id b n pr c d (f p)); try done.
    + cbn [products set_products]. unfold set_products. cbn.
      rewrite update_first_idempotent;
        [by unfold f; rewrite set_paths_idempotent | done
         | intros q; apply set_paths_idempotent].
    + cbn [products set_products]. by rewrite Hlook, Nat.eqb_refl.
Qed.

Lemma put_product_updates_witness :
  ∃ p',
    (put_product world_P 7 body_B).2 = res_status_json 200 (JProduct p')
    ∧ product_id p' = 7 ∧ rating p' = rating product_P
    ∧ Some (product_name p') = body_name body_B
    ∧ Some (price p') = body_price body_B
    ∧ Some (category p') = body_category body_B
    ∧ description p' = body_description body_B
    ∧ (body_hotel body_B = None → hotel p' = hotel product_P)
    ∧ (body_imgUrl body_B = None → imgUrl p' = imgUrl product_P)
    ∧ get_product (put_product world_P 7 body_B).1 7
      = ((put_product world_P 7 body_B).1, res_status_json 200 (JProduct p'))
    ∧ (∀ id', id' ≠ 7 →
         (get_product (put_product world_P 7 body_B).1 id').2
         = (get_product world_P id').2)
    ∧ length (products (put_product world_P 7 body_B).1)
      = length (products world_P)
    ∧ put_product (put_product world_P 7 body_B).1 7 body_B
      = ((put_product world_P 7 body_B).1, res_status_json 200 (JProduct p')).
Proof.
  apply (put_product_updates world_P 7 body_B product_P); reflexivity.
Defined.

(** X13. Delete. For an id that a product has, in a catalogue without two
    products of one id, the route answers 200; afterwards the id is not
    found (reading it and deleting it again are answered 404), every
    other id reads as before, and the catalogue has one product less. *)
Theorem delete_product_removes (w : World) (id : nat) (p : Product) :
  NoDup (map product_id (products w)) →
  Product_findById w id = Ok (Some p) →
  (delete_product w id).2
  = res_status_json 200 (JMessage "Product deleted successfully")
  ∧ get_product (delete_product w id).1 id
    = ((delete_product w id).1,
       res_status_json 404 (JMessage "Product not found"))
  ∧ delete_product (delete_product w id).1 id
    = ((delete_product w id).1,
       res_status_json 404 (JMessage "Product not found"))
  ∧ (∀ id', id' ≠ id →
       (get_product (delete_product w id).1 id').2 = (get_product w id').2)
  ∧ S (length (products (delete_product w id).1)) = length (products w).
Proof.
  intros Hnodup [Hdb Hfind]%Product_findById_Ok.
  assert (delete_product w id
          = (set_products w (delete_first id (products w)),
             res_status_json 200 (JMessage "Product deleted successfully")))
    as ->.
  { unfold delete_product, Product_findByIdAndDelete. by rewrite Hdb, Hfind. }
  cbn [fst snd].
  pose proof (find_delete_first_same id (products w) Hnodup) as Hgone.
  split; [done|]. split; [|split; [|split]].
  - unfold get_product, Product_findById. cbn [db_failure set_products products].
    rewrite Hdb. fold (has_id id). by rewrite Hgone.
  - unfold delete_product, Product_findByIdAndDelete.
    cbn [db_failure set_products products]. by rewrite Hdb, Hgone.
  - intros id' Hne. unfold get_product, Product_findById.
    cbn [db_failure set_products products]. rewrite Hdb. fold (has_id id').
    rewrite find_delete_first_other by done.
    by destruct (find (has_id id') (products w)).
  - cbn [products set_products]. by apply (length_delete_first id _ p).
Qed.

Lemma delete_product_removes_witness :
  (delete_product world_P 7).2
  = res_status_json 200 (JMessage "Product deleted successfully")
  ∧ get_product (delete_product world_P 7).1 7
    = ((delete_product world_P 7).1,
       res_status_json 404 (JMessage "Product not found"))
  ∧ delete_product (delete_product world_P 7).1 7
    = ((delete_product world_P 7).1,
       res_status_json 404 (JMessage "Product not found"))
  ∧ (∀ id', id' ≠ 7 →
       (get_product (delete_product world_P 7).1 id').2
       = (get_product world_P id').2)
  ∧ S (length (products (delete_product world_P 7).1))
    = length (products world_P).
Proof.
  apply (delete_product_removes world_P 7 product_P).
  - repeat constructor. intros Hin. inversion Hin.
  - reflexivity.
Defined.

(** ** A sequence of ratings *)








(** ** The pages of the products route *)

(** [Math.ceil(count / limit)] is the number of pages of [limit]
    products that [count] products fill. *)
Lemma totalPages_spec (c : nat) (l : positive) :
  ∃ T : nat,
    Qceiling (inject_Z (Z.of_nat c) / inject_Z (Z.pos l)) = Z.of_nat T
    ∧ (c ≤ T * Pos.to_nat l)%nat
    ∧ (T * Pos.to_nat l < c + Pos.to_nat l)%nat.
Proof.
  set (x := (inject_Z (Z.of_nat c) / inject_Z (Z.pos l))%Q).
  pose proof (Qle_ceiling x) as Hle. pose proof (Qceiling_lt x) as Hlt.
  set (T := Qceiling x) in *.
  unfold Qle, Qlt, x in Hle, Hlt. simpl in Hle, Hlt.
  rewrite !Z.mul_1_r in Hle, Hlt.
  assert (0 <= T)%Z as HT by nia.
  exists (Z.to_nat T). split; [lia|]. split; nia.
Qed.

(** The route when the store answers. *)
Lemma get_products_Ok (w : World) (h : option string)
    (page limit : option positive) :
  db_failure w = None →
  get_products w h page limit
  = (w, {| list_status := 200;
           list_body :=
             LPage
               (take (Pos.to_nat (default 10%positive limit))
                  (drop ((Pos.to_nat (default 1%positive page) - 1)
                         * Pos.to_nat (default 10%positive limit))
                     (List.filter (hotel_filter h) (products w))))
               (Qceiling
                  (inject_Z
                     (Z.of_nat (length (List.filter (hotel_filter h) (products w))))
                   / inject_Z (Z.pos (default 10%positive limit))))
               (default 1%positive page) |}).
Proof.
  intros Hdb. unfold get_products, Product_find, Product_countDocuments.
  by rewrite Hdb.
Qed.

(** The first [T] chunks of [n] elements make up the first [T * n]. *)
Lemma concat_chunks {A} (n T : nat) (l : list A) :
  concat (map (λ k, take n (drop (k * n) l)) (seq 0 T)) = take (T * n) l.
Proof.
  induction T as [|T IH]; [done|].
  rewrite seq_S, map_app, concat_app, IH. cbn [map concat plus].
  rewrite app_nil_r, take_take_drop. f_equal. lia.
Qed.

(** X16. One page: it is answered 200, holds at most [limit] products, all of
    the hotel that was asked for, in the order of the catalogue; a
    missing page is page 1 and a missing limit is 10; and the number of
    pages it reports is the least number of pages of that size that hold
    all the products found. *)
Theorem get_products_page (w : World) (h : option string)
    (page limit : option positive) :
  db_failure w = None →
  let found := List.filter (hotel_filter h) (products w) in
  let L := Pos.to_nat (default 10%positive limit) in
  ∃ (ps : list Product) (T : nat),
    get_products w h page limit
    = (w, {| list_status := 200;
             list_body := LPage ps (Z.of_nat T) (default 1%positive page) |})
    ∧ ps = take L (drop ((Pos.to_nat (default 1%positive page) - 1) * L) found)
    ∧ (length ps ≤ L)%nat
    ∧ Forall (λ p, hotel_filter h p = true) ps
    ∧ (length found ≤ T * L)%nat
    ∧ (T * L < length found + L)%nat.
Proof.
  intros Hdb found L. rewrite (get_products_Ok w h page limit Hdb).
  destruct (totalPages_spec (length found) (default 10%positive limit))
    as (T & HT & Hle & Hlt).
  eexists _, T. fold found. rewrite HT. split; [reflexivity|].
  split; [reflexivity|]. fold L.
  split; [rewrite length_take; lia|].
  split; [|done].
  apply Forall_forall. intros p Hin.
  assert (In p found) as Hf.
  { apply list_elem_of_In. apply (elem_of_sublist _ _ _ Hin).
    etrans; [apply sublist_take|apply sublist_drop]. }
  unfold found in Hf. by apply filter_In in Hf as [_ ?].
Qed.

Lemma get_products_page_witness :
  ∃ (ps : list Product) (T : nat),
    get_products world_PB (Some "Ritz") None (Some 1%positive)
    = (world_PB,
       {| list_status := 200;
          list_body := LPage ps (Z.of_nat T) (default 1%positive None) |})
    ∧ ps = take (Pos.to_nat (default 10%positive (Some 1%positive)))
             (drop ((Pos.to_nat (default 1%positive None) - 1)
                    * Pos.to_nat (default 10%positive (Some 1%positive)))
                (List.filter (hotel_filter (Some "Ritz")) (products world_PB)))
    ∧ (length ps ≤ Pos.to_nat (default 10%positive (Some 1%positive)))%nat
    ∧ Forall (λ p, hotel_filter (Some "Ritz") p = true) ps
    ∧ (length (List.filter (hotel_filter (Some "Ritz")) (products world_PB))
       ≤ T * Pos.to_nat (default 10%positive (Some 1%positive)))%nat
    ∧ (T * Pos.to_nat (default 10%positive (Some 1%positive))
       < length (List.filter (hotel_filter (Some "Ritz")) (products world_PB))
         + Pos.to_nat (default 10%positive (Some 1%positive)))%nat.
Proof.
  apply (get_products_page world_PB (Some "Ritz") None (Some 1%positive)).
  reflexivity.
Defined.

(** X17. All the pages. With a limit [limit] and [T] the number of pages
    that the route reports, the pages 1 to [T], one after the other, are
    the products found, each once and in the order of the catalogue;
    each of these pages has a product, and every page after them is
    empty. *)
Theorem get_products_pages (w : World) (h : option string)
    (limit : positive) :
  db_failure w = None →
  ∃ T : nat,
    (∀ page,
       ∃ ps,
         (get_products w h (Some page) (Some limit)).2
         = {| list_status := 200;
              list_body := LPage ps (Z.of_nat T) page |})
    ∧ concat
        (map (λ k, listed (get_products w h (Some (Pos.of_nat k)) (Some limit)).2)
           (seq 1 T))
      = List.filter (hotel_filter h) (products w)
    ∧ (∀ page, (Pos.to_nat page ≤ T)%nat →
         listed (get_products w h (Some page) (Some limit)).2 ≠ [])
    ∧ (∀ page, (T < Pos.to_nat page)%nat →
         listed (get_products w h (Some page) (Some limit)).2 = []).
Proof.
  intros Hdb. set (found := List.filter (hotel_filter h) (products w)).
  destruct (totalPages_spec (length found) limit) as (T & HT & Hle & Hlt).
  pose proof (Pos2Nat.is_pos limit) as HL.
  set (L := Pos.to_nat limit) in *.
  assert (∀ page,
            get_products w h (Some page) (Some limit)
            = (w, {| list_status := 200;
                     list_body :=
                       LPage (take L (drop ((Pos.to_nat page - 1) * L) found))
                         (Z.of_nat T) page |})) as Hpage.
  { intros page. rewrite (get_products_Ok w h _ _ Hdb). fold found.
    cbn [from_option id]. fold L. by rewrite HT. }
  exists T. split; [|split; [|split]].
  - intros page. rewrite Hpage. by eexists.
  - transitivity (concat (map (λ k, take L (drop (k * L) found)) (seq 0 T))).
    + rewrite <- seq_shift, map_map. f_equal. apply map_ext. intros k.
      rewrite Hpage. unfold listed. cbn [snd list_body].
      rewrite Nat2Pos.id by lia. do 3 f_equal. lia.
    + rewrite concat_chunks. by apply take_ge.
  - intros page Hp. rewrite Hpage. unfold listed. cbn [snd list_body].
    intros Hnil. apply (f_equal length) in Hnil.
    rewrite length_take, length_drop in Hnil. cbn in Hnil.
    pose proof (Pos2Nat.is_pos page). nia.
  - intros page Hp. rewrite Hpage. unfold listed. cbn [snd list_body].
    rewrite drop_ge; [by destruct L|]. nia.
Qed.

Lemma get_products_pages_witness :
  ∃ T : nat,
    (∀ page,
       ∃ ps,
         (get_products world_PB None (Some page) (Some 1%positive)).2
         = {| list_status := 200;
              list_body := LPage ps (Z.of_nat T) page |})
    ∧ concat
        (map (λ k, listed (get_products world_PB None (Some (Pos.of_nat k))
                             (Some 1%positive)).2)
           (seq 1 T))
      = List.filter (hotel_filter None) (products world_PB)
    ∧ (∀ page, (Pos.to_nat page ≤ T)%nat →
         listed (get_products world_PB None (Some page) (Some 1%positive)).2 ≠ [])
    ∧ (∀ page, (T < Pos.to_nat page)%nat →
         listed (get_products world_PB None (Some page) (Some 1%positive)).2 = []).
Proof.
  apply (get_products_pages world_PB None 1%positive). reflexivity.
Defined.

(** ** The routes that list products *)

(** X18. The route of a category answers 404 exactly when no product has the
    category; otherwise it answers 200 with the products of the
    category, in the order of the catalogue. The routes of the best
    deals and of the featured products answer 200 with the products that
    carry the flag, also when there is none. *)
Theorem listing_routes (w : World) (c : string) :
  db_failure w = None →
  (list_status (get_category w c).2 = 404
   ↔ ∀ p, In p (products w) → category p ≠ c)
  ∧ (list_status (get_category w c).2 ≠ 404 →
     (get_category w c).2
     = {| list_status := 200;
          list_body :=
            LProducts (List.filter (λ p, String.eqb (category p) c) (products w)) |})
  ∧ (get_best_deals w).2
    = {| list_status := 200;
         list_body := LProducts (List.filter isBestDeal (products w)) |}
  ∧ (get_featured_products w).2
    = {| list_status := 200;
         list_body := LProducts (List.filter isFeatured (products w)) |}.
Proof.
  intros Hdb.
  unfold get_category, get_best_deals, get_featured_products, Product_find.
  rewrite Hdb.
  set (found := List.filter (λ p, String.eqb (category p) c) (products w)).
  assert (found = [] ↔ ∀ p, In p (products w) → category p ≠ c) as Hnone.
  { split.
    - intros Hnil p Hin Hc.
      assert (In p found) as Hf.
      { apply filter_In. split; [done|]. by apply String.eqb_eq. }
      rewrite Hnil in Hf. done.
    - intros Hall. destruct found as [|p ps] eqn:Hf; [done|].
      assert (In p found) as Hin by (rewrite Hf; by left).
      apply filter_In in Hin as [Hin Hc%String.eqb_eq]. by destruct (Hall p Hin). }
  split; [|split; [|done]].
  - rewrite <- Hnone. destruct found; cbn; split; done.
  - destruct found; cbn; done.
Qed.

Lemma listing_routes_witness :
  (list_status (get_category world_PB "drinks").2 = 404
   ↔ ∀ p, In p (products world_PB) → category p ≠ "drinks")
  ∧ (list_status (get_category world_PB "drinks").2 ≠ 404 →
     (get_category world_PB "drinks").2
     = {| list_status := 200;
          list_body :=
            LProducts (List.filter (λ p, String.eqb (category p) "drinks")
                         (products world_PB)) |})
  ∧ (get_best_deals world_PB).2
    = {| list_status := 200;
         list_body := LProducts (List.filter isBestDeal (products world_PB)) |}
  ∧ (get_featured_products world_PB).2
    = {| list_status := 200;
         list_body := LProducts (List.filter isFeatured (products world_PB)) |}.
Proof. apply (listing_routes world_PB "drinks"). reflexivity. Defined.

(** ** When the store does not answer *)

(** X19. With the store out of reach, the routes that create and update a
    product answer 400 to a complete body, with the message of the
    error; the routes that read, delete, rate and list products answer
    500 with it. *)
Theorem store_failure_answers (w : World) (e : string) (id : nat)
    (b : ProductBody) (r : Q) (h : option string)
    (page limit : option positive) (c : string) :
  db_failure w = Some e →
  (body_incomplete b = false →
   (post_product w b).2
   = res_status_json 400 (JError "Failed to insert product" e))
  ∧ (body_incomplete b = false →
     (put_product w id b).2
     = res_status_json 400 (JError "Failed to update product" e))
  ∧ (get_product w id).2
    = res_status_json 500 (JError "Failed to fetch product details" e)
  ∧ (delete_product w id).2
    = res_status_json 500 (JError "Failed to delete product" e)
  ∧ (rating_rejected (Some r) = false →
     (rate w id (Some r)).2
     = res_status_json 500 (JError "Failed to update rating" e))
  ∧ (get_products w h page limit).2
    = {| list_status := 500; list_body := LError "Failed to fetch products" e |}
  ∧ (get_best_deals w).2
    = {| list_status := 500;
         list_body := LError "Failed to fetch best deals" e |}
  ∧ (get_featured_products w).2
    = {| list_status := 500;
         list_body := LError "Failed to fetch featured products" e |}
  ∧ (get_category w c).2
    = {| list_status := 500;
         list_body :=
           LError ("Failed to fetch products by category: " +:+ c) e |}.
Proof.
  intros Hdb. repeat split.
  - intros (n & pr & cat & d & Hn & Hp & Hc & Hd & Hn0 & Hp0 & Hc0 & Hd0)%body_complete.
    rewrite (post_product_complete w b n pr cat d) by done. cbv zeta.
    by rewrite Hdb.
  - intros Hb. unfold put_product. rewrite Hb.
    apply body_complete in Hb as (n & pr & cat & d & -> & -> & -> & -> & _).
    unfold Product_findByIdAndUpdate. by rewrite Hdb.
  - unfold get_product, Product_findById. by rewrite Hdb.
  - unfold delete_product, Product_findByIdAndDelete. by rewrite Hdb.
  - intros Hr. unfold rate, Product_findById. by rewrite Hr, Hdb.
  - unfold get_products, Product_find. by rewrite Hdb.
  - unfold get_best_deals, Product_find. by rewrite Hdb.
  - unfold get_featured_products, Product_find. by rewrite Hdb.
  - unfold get_category, Product_find. by rewrite Hdb.
Qed.

Lemma store_failure_answers_witness :
  (post_product world_A_offline body_B).2
  = res_status_json 400 (JError "Failed to insert product" "connection lost")
  ∧ (get_product world_A_offline 7).2
    = res_status_json 500
        (JError "Failed to fetch product details" "connection lost").
Proof.
  destruct (store_failure_answers world_A_offline "connection lost" 7 body_B
              4%Q None None None "drinks" eq_refl)
    as (Hpost & _ & Hget & _).
  split; [apply Hpost; reflexivity|exact Hget].
Defined.

(** ** What every route keeps true of the store *)

(** The three ways a registration leaves the state. *)
Lemma register_world `{Bcrypt} (salt : string) (w : World)
    (req : RegisterRequest) :
  (register salt w req).1 = w
  ∨ (register salt w req).1 = (take_oid w).2
  ∨ ∃ e doc,
      find (has_email e) (users w) = None
      ∧ _id doc = next_oid w
      ∧ fields doc !! "email" = Some (VString e)
      ∧ (register salt w req).1
        = set_users (take_oid w).2 (users w ++ [doc])%list.
Proof.
  unfold register.
  destruct (falsy (name req) || falsy (email req) || falsy (phone req)
            || falsy (password req)); [by left|].
  destruct (name req) as [n|]; [|by left].
  destruct (email req) as [e|]; [|by left].
  destruct (phone req) as [ph|]; [|by left].
  destruct (password req) as [pw|]; [|by left].
  destruct (User_findOne w e) as [[?|]|] eqn:Hfind; [by left| |by left].
  apply User_findOne_Ok in Hfind as [Hdb Hnone].
  unfold take_oid. cbv zeta iota beta.
  fold (register_input n e ph (bcrypt_hash salt pw 10)
          (match file req with Some path => path | None => "" end)).
  set (newUser := new_User _ _).
  unfold User_save.
  destruct (User_validate newUser) as [[]|]; [|by right; left].
  cbn [db_failure]. rewrite Hdb.
  change (get newUser "email") with (VString e).
  cbn [users]. rewrite (find_None_existsb _ _ Hnone).
  right. right. by exists e, newUser.
Qed.

Lemma has_email_inj (e e' : string) (doc : Document) :
  fields doc !! "email" = Some (VString e) → has_email e' doc = true → e' = e.
Proof.
  intros He Hb. unfold has_email in Hb. apply bool_decide_eq_true in Hb.
  rewrite He in Hb. by injection Hb.
Qed.

Lemma Forall_lt_S {A} (f : A → nat) (k : nat) (l : list A) :
  Forall (λ x, (f x < k)%nat) l → Forall (λ x, (f x < S k)%nat) l.
Proof. intros Hl. apply (Forall_impl _ _ _ Hl). intros x. lia. Qed.

Lemma not_in_map_lt {A} (f : A → nat) (k : nat) (l : list A) :
  Forall (λ x, (f x < k)%nat) l → ¬ In k (map f l).
Proof.
  intros Hall (x & Hx & Hin)%in_map_iff.
  apply list_elem_of_In in Hin.
  rewrite Forall_forall in Hall. specialize (Hall x Hin). simpl in Hall. lia.
Qed.

Lemma NoDup_snoc_fresh {A} (f : A → nat) (l : list A) (x : A) :
  NoDup (map f l) → Forall (λ y, (f y < f x)%nat) l →
  NoDup (map f (l ++ [x])%list).
Proof.
  intros Hnd Hall. rewrite map_app. apply NoDup_app. split; [done|].
  split; [|apply NoDup_singleton].
  intros k Hk ->%list_elem_of_singleton.
  apply list_elem_of_In in Hk. by apply (not_in_map_lt f (f x) l).
Qed.

Lemma consistent_take_oid (w : World) :
  consistent w → consistent (take_oid w).2.
Proof.
  intros (He & Hu & Hp & Hiu & Hip).
  split; [exact He|]. split; [exact Hu|]. split; [exact Hp|].
  split; by apply Forall_lt_S.
Qed.

Lemma consistent_set_products (w : World) (ps : list Product) :
  consistent w →
  NoDup (map product_id ps) →
  Forall (λ p, (product_id p < next_oid w)%nat) ps →
  consistent (set_products w ps).
Proof.
  intros (He & Hu & _ & Hiu & _) Hnd Hall.
  split; [exact He|]. split; [exact Hu|]. split; [exact Hnd|]. by split.
Qed.

Lemma consistent_register `{Bcrypt} (salt : string) (w : World)
    (req : RegisterRequest) :
  consistent w → consistent (register salt w req).1.
Proof.
  intros Hw.
  destruct (register_world salt w req)
    as [-> | [-> | (e & doc & Hnone & Hid & Hemail & ->)]];
    [done | by apply consistent_take_oid |].
  destruct Hw as (He & Hu & Hp & Hiu & Hip).
  split; [|split; [|split; [exact Hp|split]]].
  - intros e'. rewrite count_email_snoc.
    change (count_email e' (set_users (take_oid w).2 (users w)))
      with (count_email e' w).
    destruct (has_email e' doc) eqn:Hdoc; [|specialize (He e'); lia].
    apply (has_email_inj e e' doc Hemail) in Hdoc as ->.
    by rewrite (count_email_None e w Hnone).
  - cbn [users set_users]. apply NoDup_snoc_fresh; [done|]. by rewrite Hid.
  - cbn [users set_users next_oid take_oid snd].
    apply Forall_app. split; [by apply Forall_lt_S|].
    apply Forall_singleton. lia.
  - cbn [products set_users next_oid take_oid snd]. by apply Forall_lt_S.
Qed.

Lemma consistent_post_product (w : World) (b : ProductBody) :
  consistent w → consistent (post_product w b).1.
Proof.
  intros Hw. destruct (body_incomplete b) eqn:Hb.
  { unfold post_product. by rewrite Hb. }
  apply body_complete in Hb
    as (n & pr & c & d & Hn & Hp & Hc & Hd & Hn0 & Hp0 & Hc0 & Hd0).
  rewrite (post_product_complete w b n pr c d) by done. cbv zeta.
  destruct (db_failure w); [by apply consistent_take_oid|].
  destruct (existsb _ _); [by apply consistent_take_oid|].
  cbn [fst]. apply consistent_set_products; [by apply consistent_take_oid| |].
  - destruct Hw as (_ & _ & Hp' & _ & Hip). by apply NoDup_snoc_fresh.
  - destruct Hw as (_ & _ & _ & _ & Hip). cbn [next_oid take_oid snd].
    apply Forall_app. split; [by apply Forall_lt_S|].
    apply Forall_singleton. cbn. lia.
Qed.

Lemma map_product_id_save (p' : Product) (ps : list Product) :
  map product_id
    (map (λ q, if Nat.eqb (product_id q) (product_id p') then p' else q) ps)
  = map product_id ps.
Proof.
  rewrite map_map. apply map_ext. intros q.
  destruct (Nat.eqb (product_id q) (product_id p')) eqn:Hq; [|done].
  by apply Nat.eqb_eq in Hq.
Qed.

Lemma map_product_id_update_first (id : nat) (f : Product → Product)
    (ps : list Product) :
  (∀ p, product_id (f p) = product_id p) →
  map product_id (update_first id f ps) = map product_id ps.
Proof.
  intros Hf. induction ps as [|p ps IH]; [done|]. simpl.
  destruct (has_id id p); simpl; by rewrite ?Hf, ?IH.
Qed.

Lemma delete_first_sublist (id : nat) (ps : list Product) :
  map product_id (delete_first id ps) `sublist_of` map product_id ps.
Proof.
  induction ps as [|p ps IH]; [done|]. simpl.
  destruct (has_id id p); [by apply sublist_cons|by apply sublist_skip].
Qed.

Lemma Forall_map_lt (k : nat) (ps : list Product) :
  Forall (λ p, (product_id p < k)%nat) ps
  ↔ Forall (λ i, (i < k)%nat) (map product_id ps).
Proof. by rewrite Forall_fmap. Qed.

(** A change of the catalogue that keeps the ids, or drops some. *)
Lemma consistent_products_sublist (w : World) (ps : list Product) :
  consistent w →
  map product_id ps `sublist_of` map product_id (products w) →
  consistent (set_products w ps).
Proof.
  intros Hw Hsub. apply consistent_set_products; [done| |].
  - destruct Hw as (_ & _ & Hp & _). by apply (sublist_NoDup _ _ Hp Hsub).
  - destruct Hw as (_ & _ & _ & _ & Hip).
    apply Forall_map_lt. apply Forall_map_lt in Hip.
    rewrite Forall_forall in Hip |- *. intros i Hi.
    apply Hip. by apply (elem_of_sublist _ _ _ Hi).
Qed.

Lemma consistent_rate (w : World) (id : nat) (newRating : option Q) :
  consistent w → consistent (rate w id newRating).1.
Proof.
  intros Hw. unfold rate.
  destruct (rating_rejected newRating); [done|].
  destruct newRating as [r|]; [|done].
  destruct (Product_findById w id) as [[p|]|]; [|done..].
  cbv zeta. unfold Product_save. destruct (db_failure w); [done|].
  cbn [fst]. apply consistent_products_sublist; [done|].
  by rewrite map_product_id_save.
Qed.

Lemma consistent_put_product (w : World) (id : nat) (b : ProductBody) :
  consistent w → consistent (put_product w id b).1.
Proof.
  intros Hw. unfold put_product.
  destruct (body_incomplete b); [done|].
  destruct (body_name b), (body_price b), (body_category b),
    (body_description b); try done.
  unfold Product_findByIdAndUpdate.
  destruct (db_failure w); [done|].
  destruct (find (has_id id) (products w)); [|done].
  cbn [fst]. apply consistent_products_sublist; [done|].
  by rewrite map_product_id_update_first.
Qed.

Lemma consistent_delete_product (w : World) (id : nat) :
  consistent w → consistent (delete_product w id).1.
Proof.
  intros Hw. unfold delete_product, Product_findByIdAndDelete.
  destruct (db_failure w); [done|].
  destruct (find (has_id id) (products w)); [|done].
  cbn [fst]. apply consistent_products_sublist; [done|].
  apply delete_first_sublist.
Qed.

Lemma consistent_serve `{Bcrypt} `{Jws} (env : Env) (w : World) (c : Call) :
  consistent w → consistent (serve env w c).
Proof.
  intros Hw. destruct c; cbn [serve].
  - by apply consistent_register.
  - unfold login. destruct (User_findOne w _) as [[user|]|]; [|done..].
    by destruct (bcrypt_compare _ _) as [[]|].
  - unfold me. by destruct (authMiddleware env now req).
  - by apply consistent_post_product.
  - unfold get_products.
    destruct (Product_find w _); [|done].
    by destruct (Product_countDocuments w _).
  - unfold get_best_deals. by destruct (Product_find w _).
  - unfold get_featured_products. by destruct (Product_find w _).
  - unfold get_product. by destruct (Product_findById w id) as [[?|]|].
  - by apply consistent_put_product.
  - unfold get_category. destruct (Product_find w _) as [ps|]; [|done].
    by destruct (Nat.eqb (length ps) 0).
  - by apply consistent_rate.
  - by apply consistent_delete_product.
Qed.

(** X21. Whatever requests are served, one after the other, from a
    consistent store (the empty one, for instance), the store stays
    consistent: no two users have the same email, no two users and no
    two products have the same id, and every id is below the counter. *)
Theorem routes_keep_store_consistent `{Bcrypt} `{Jws} (env : Env)
    (calls : list Call) (w : World) :
  consistent w → consistent (fold_left (serve env) calls w).
Proof.
  revert w. induction calls as [|c calls IH]; intros w Hw; [done|].
  cbn [fold_left]. apply IH. by apply consistent_serve.
Qed.

Lemma empty_world_consistent : consistent empty_world.
Proof.
  split; [|split; [|split; [|split]]]; cbn.
  - intros e. cbn. lia.
  - constructor.
  - constructor.
  - constructor.
  - constructor.
Qed.

Lemma routes_keep_store_consistent_witness :
  consistent
    (fold_left (@serve mark_bcrypt unary_jws env_k)
       [PostRegister "salt" request_A; PostRegister "salt2" request_A_picture;
        PostProduct body_B; PostRate 1 (Some 5%Q); DeleteProduct 1]
       empty_world).
Proof.
  apply (@routes_keep_store_consistent mark_bcrypt unary_jws env_k).
  exact empty_world_consistent.
Defined.

(** ** More on rating, creating and logging in *)

Lemma find_saved_other (ps : list Product) (id' : nat) (p' : Product) :
  id' ≠ product_id p' →
  find (has_id id')
    (map (λ q, if Nat.eqb (product_id q) (product_id p') then p' else q) ps)
  = find (has_id id') ps.
Proof.
  intros Hne. induction ps as [|q ps IH]; [done|]. simpl.
  destruct (Nat.eqb (product_id q) (product_id p')) eqn:Hq.
  - apply Nat.eqb_eq in Hq.
    assert (has_id id' p' = false) as ->
      by (unfold has_id; apply Nat.eqb_neq; lia).
    assert (has_id id' q = false) as ->
      by (unfold has_id; apply Nat.eqb_neq; lia).
    exact IH.
  - destruct (has_id id' q); [done|exact IH].
Qed.

(** X15. A rating changes the rating of one product and nothing else: the
    product keeps its id and its other paths, every other id reads as
    before, and the users, the number of products and the counter of ids
    are as before. *)
Theorem rate_changes_only_rating (w : World) (id : nat) (r : Q)
    (p : Product) :
  (1 <= r)%Q → (r <= 5)%Q →
  Product_findById w id = Ok (Some p) →
  ∃ p',
    (rate w id (Some r)).2 = res_status_json 200 (JProduct p')
    ∧ product_id p' = product_id p ∧ product_name p' = product_name p
    ∧ price p' = price p ∧ category p' = category p
    ∧ description p' = description p ∧ imgUrl p' = imgUrl p
    ∧ hotel p' = hotel p ∧ isFeatured p' = isFeatured p
    ∧ isBestDeal p' = isBestDeal p
    ∧ (∀ id', id' ≠ id →
         (get_product (rate w id (Some r)).1 id').2 = (get_product w id').2)
    ∧ users (rate w id (Some r)).1 = users w
    ∧ length (products (rate w id (Some r)).1) = length (products w)
    ∧ next_oid (rate w id (Some r)).1 = next_oid w.
Proof.
  intros H1 H5 Hfind. pose proof Hfind as [Hdb Hf]%Product_findById_Ok.
  pose proof (find_has_id_Some _ _ _ Hf) as [Hid _].
  unfold rate. rewrite (rating_accepted r H1 H5), Hfind. cbv zeta.
  unfold Product_save. rewrite Hdb. cbn [fst snd].
  eexists. split; [reflexivity|].
  repeat (split; [reflexivity|]).
  split; [|split; [done|split; [|done]]].
  - intros id' Hne. unfold get_product, Product_findById.
    cbn [db_failure set_products products]. rewrite Hdb. fold (has_id id').
    rewrite find_saved_other by (cbn; lia).
    by destruct (find (has_id id') (products w)).
  - cbn [products set_products]. by rewrite length_map.
Qed.

Lemma rate_changes_only_rating_witness :
  ∃ p',
    (rate world_P 7 (Some 5%Q)).2 = res_status_json 200 (JProduct p')
    ∧ product_id p' = product_id product_P
    ∧ product_name p' = product_name product_P
    ∧ price p' = price product_P ∧ category p' = category product_P
    ∧ description p' = description product_P ∧ imgUrl p' = imgUrl product_P
    ∧ hotel p' = hotel product_P ∧ isFeatured p' = isFeatured product_P
    ∧ isBestDeal p' = isBestDeal product_P
    ∧ (∀ id', id' ≠ 7 →
         (get_product (rate world_P 7 (Some 5%Q)).1 id').2
         = (get_product world_P id').2)
    ∧ users (rate world_P 7 (Some 5%Q)).1 = users world_P
    ∧ length (products (rate world_P 7 (Some 5%Q)).1)
      = length (products world_P)
    ∧ next_oid (rate world_P 7 (Some 5%Q)).1 = next_oid world_P.
Proof.
  apply (rate_changes_only_rating world_P 7 5%Q product_P);
    [by vm_compute | by vm_compute | reflexivity].
Defined.

Lemma filter_snoc {A} (f : A → bool) (l : list A) (x : A) :
  List.filter f (l ++ [x])%list
  = (List.filter f l ++ if f x then [x] else [])%list.
Proof. rewrite List.filter_app. simpl. by destruct (f x). Qed.

(** X20. Create, then list. After a product is created (201), the route of
    its category answers 200 and lists it last; the routes of the
    featured products and of the best deals list it last if the body set
    the flag to true, and list what they listed before if not. *)
Theorem post_product_then_listed (w : World) (b : ProductBody) :
  Forall (λ p, (product_id p < next_oid w)%nat) (products w) →
  status (post_product w b).2 = 201 →
  ∃ p c,
    (post_product w b).2 = res_status_json 201 (JProduct p)
    ∧ body_category b = Some c
    ∧ (get_category (post_product w b).1 c).2
      = {| list_status := 200;
           list_body := LProducts (listed (get_category w c).2 ++ [p])%list |}
    ∧ listed (get_featured_products (post_product w b).1).2
      = (listed (get_featured_products w).2
         ++ if default false (body_isFeatured b) then [p] else [])%list
    ∧ listed (get_best_deals (post_product w b).1).2
      = (listed (get_best_deals w).2
         ++ if default false (body_isBestDeal b) then [p] else [])%list.
Proof.
  intros Hissued. apply existsb_has_id_issued in Hissued.
  destruct (body_incomplete b) eqn:Hb.
  { unfold post_product. rewrite Hb. intros [=]. }
  apply body_complete in Hb
    as (n & pr & c & d & Hn & Hp & Hc & Hd & Hn0 & Hp0 & Hc0 & Hd0).
  rewrite (post_product_complete w b n pr c d) by done. cbv zeta.
  rewrite Hissued. destruct (db_failure w) as [e|] eqn:Hdb; [intros [=]|].
  intros _. set (p := new_Product (next_oid w) n pr c d b).
  exists p, c. cbn [fst snd]. split; [done|]. split; [done|].
  unfold get_category, get_featured_products, get_best_deals, Product_find.
  cbn [db_failure set_products products take_oid snd]. rewrite Hdb.
  rewrite !filter_snoc.
  change (category p) with c. rewrite String.eqb_refl.
  change (isFeatured p) with (default false (body_isFeatured b)).
  change (isBestDeal p) with (default false (body_isBestDeal b)).
  split; [|split; [done|done]].
  assert (∀ l : list Product, Nat.eqb (length (l ++ [p])%list) 0 = false) as Hlen.
  { intros l. rewrite length_app. apply Nat.eqb_neq. simpl. lia. }
  rewrite Hlen.
  destruct (List.filter (λ q, String.eqb (category q) c) (products w)); done.
Qed.

Lemma post_product_then_listed_witness :
  ∃ p c,
    (post_product world_P body_B).2 = res_status_json 201 (JProduct p)
    ∧ body_category body_B = Some c
    ∧ (get_category (post_product world_P body_B).1 c).2
      = {| list_status := 200;
           list_body :=
             LProducts (listed (get_category world_P c).2 ++ [p])%list |}
    ∧ listed (get_featured_products (post_product world_P body_B).1).2
      = (listed (get_featured_products world_P).2
         ++ if default false (body_isFeatured body_B) then [p] else [])%list
    ∧ listed (get_best_deals (post_product world_P body_B).1).2
      = (listed (get_best_deals world_P).2
         ++ if default false (body_isBestDeal body_B) then [p] else [])%list.
Proof.
  apply (post_product_then_listed world_P body_B).
  - repeat constructor.
  - reflexivity.
Defined.

(** X8. A login without a password tells whether the email is registered:
    it is answered 500 (the comparison throws) if a user has the email,
    and 400 if no user has it. *)
Theorem login_without_password_tells_email `{Bcrypt} `{Jws} (env : Env)
    (now : nat) (w : World) (e : string) :
  db_failure w = None →
  (∀ doc, doc ∈ users w → ∃ h, get doc "password" = VString h) →
  let req := {| login_email := e; login_password := None |} in
  ((∃ doc, doc ∈ users w ∧ fields doc !! "email" = Some (VString e))
   → (login env now w req).2
     = res_status_json 500 (JMessage "Illegal arguments: undefined, string"))
  ∧ ((∀ doc, doc ∈ users w → fields doc !! "email" ≠ Some (VString e))
     → (login env now w req).2
       = res_status_json 400 (JMessage "Invalid email or password")).
Proof.
  intros Hdb Hpw req. split.
  - intros Hsome.
    destruct (proj2 (User_findOne_Some w e) (conj Hdb Hsome)) as [user Hfind].
    unfold login. cbn [login_email login_password req]. rewrite Hfind.
    apply User_findOne_Some_has_email in Hfind as [Hin _].
    destruct (Hpw user Hin) as [h ->]. done.
  - intros Hnone.
    pose proof (proj2 (User_findOne_None w e) (conj Hdb Hnone)) as Hfind.
    unfold login. cbn [login_email req]. by rewrite Hfind.
Qed.

Lemma login_without_password_tells_email_witness :
  (@login mark_bcrypt unary_jws env_k 5 world_A
     {| login_email := "a@x.com"; login_password := None |}).2
  = res_status_json 500 (JMessage "Illegal arguments: undefined, string")
  ∧ (@login mark_bcrypt unary_jws env_k 5 world_A
       {| login_email := "b@x.com"; login_password := None |}).2
    = res_status_json 400 (JMessage "Invalid email or password").
Proof.
  assert (db_failure world_A = None) as Hdb by reflexivity.
  assert (∀ doc, doc ∈ users world_A → ∃ h, get doc "password" = VString h)
    as Hpw.
  { intros doc Hin. change (users world_A) with [user_A] in Hin.
    apply list_elem_of_singleton in Hin as ->. by eexists. }
  split.
  - apply (@login_without_password_tells_email mark_bcrypt unary_jws env_k 5
             world_A "a@x.com" Hdb Hpw).
    exists user_A. split; [|reflexivity].
    change (users world_A) with [user_A]. by apply list_elem_of_singleton.
  - apply (@login_without_password_tells_email mark_bcrypt unary_jws env_k 5
             world_A "b@x.com" Hdb Hpw).
    intros doc Hin. change (users world_A) with [user_A] in Hin.
    apply list_elem_of_singleton in Hin as ->. discriminate.
Defined.

Lemma User_validate_Ok_iff_witness : User_validate user_A = Ok ().
Proof.
  apply (proj2 (User_validate_Ok_iff user_A)).
  exists "A", "a@x.com", "1", "$pw12345".
  repeat (split; [first [reflexivity | discriminate]|]).
  exists "", "a", "x", "com", "".
  split; [reflexivity|]. repeat split; first [reflexivity | discriminate].
Defined.

Lemma auth_answers_without_password_witness :
  (@login mark_bcrypt unary_jws env_k 5 world_A login_A).1 = world_A.
Proof.
  exact (proj2 (proj2 (@auth_answers_without_password mark_bcrypt unary_jws
                         "salt" env_k 5 world_A request_A login_A))).
Defined.
